(** * Cross-LLM-Validator: the consensus protocol of [llm_handler.py] and [app.py]

    A shallow embedding of the handler class [LLMHandler] (provider adapters,
    dispatch, judge, revision round) and of the orchestration and labelling
    code of [app.py], followed by the properties of the specification.

    Modelling conventions.
    - A Python [dict] is an insertion-ordered association list with unique
      keys ([Dict]): assignment to a present key keeps its position,
      assignment to a new key appends.
    - Python values stored in answer entries are [pyval]: text, booleans
      and [None].
    - Python text is a Rocq [string] (its UTF-8 bytes). The built-in
      functions [str.strip] and [str.upper] are not part of the repository:
      they are taken as the parameter [PyStr], any pair of functions that
      agrees on 7-bit text with the 7-bit functions [py_strip] and
      [py_upper] written out here, as Python's own do.
    - A raised exception is the [Raise] case of [res]; a coroutine is a
      value of [coroutine] that issues at most one backend request when
      it is awaited; the log of issued requests is threaded through [M]. *)

From Stdlib Require Import String Ascii List Bool Arith Lia Permutation QArith.
Import ListNotations.
Local Open Scope list_scope.
Local Open Scope nat_scope.
Local Open Scope string_scope.

(** ** Insertion-ordered dictionaries *)

Module Dict.
Section Ops.
Context {V : Type}.

Definition t : Type := list (string * V).

Definition empty : t := [].

(** [d.get(k)] *)
Fixpoint get (k : string) (d : t) : option V :=
  match d with
  | [] => None
  | (k', v) :: rest => if String.eqb k' k then Some v else get k rest
  end.

(** [k in d] *)
Definition mem (k : string) (d : t) : bool :=
  match get k d with Some _ => true | None => false end.

(** [d[k] = v] *)
Fixpoint set (k : string) (v : V) (d : t) : t :=
  match d with
  | [] => [(k, v)]
  | (k', v') :: rest =>
      if String.eqb k' k then (k', v) :: rest else (k', v') :: set k v rest
  end.

(** [a.update(b)], also the literal [{**a, **b}] *)
Definition update (a b : t) : t :=
  fold_left (fun acc kv => set (fst kv) (snd kv) acc) b a.

(** [list(d.keys())] *)
Definition keys (d : t) : list string := map fst d.
End Ops.
Arguments t : clear implicits.

(** the same dictionary with every value converted *)
Definition map_values {V W : Type} (f : V -> W) (d : t V) : t W :=
  map (fun kv => (fst kv, f (snd kv))) d.
End Dict.

(** ** Python values, exceptions, results *)

Inductive pyval : Type :=
| VStr (s : string)
| VBool (b : bool)
| VNone.

(** [str(v)], the conversion an f-string applies to a field *)
Definition py_str (v : pyval) : string :=
  match v with
  | VStr s => s
  | VBool true => "True"
  | VBool false => "False"
  | VNone => "None"
  end.

(** truth value of [v] in a condition *)
Definition truthy (v : pyval) : bool :=
  match v with
  | VStr s => negb (String.eqb s EmptyString)
  | VBool b => b
  | VNone => false
  end.

(** [v == w] *)
Definition pyval_eqb (v w : pyval) : bool :=
  match v, w with
  | VStr a, VStr b => String.eqb a b
  | VBool a, VBool b => Bool.eqb a b
  | VNone, VNone => true
  | _, _ => false
  end.

Inductive exn : Type :=
| KeyError (key : string)
| IndexError
| AttributeError (what : string)
| ValueError (msg : string).

Inductive res (A : Type) : Type :=
| Ok (a : A)
| Raise (e : exn).
Arguments Ok {A} a.
Arguments Raise {A} e.

Definition res_bind {A B : Type} (r : res A) (f : A -> res B) : res B :=
  match r with
  | Ok a => f a
  | Raise e => Raise e
  end.

(** [d[k]] raises [KeyError] on a missing key *)
Definition subscript {V : Type} (d : Dict.t V) (k : string) : res V :=
  match Dict.get k d with
  | Some v => Ok v
  | None => Raise (KeyError k)
  end.

(** an answer entry, a call result: a dictionary of Python values *)
Definition entry : Type := Dict.t pyval.

(** a result set: provider name to entry *)
Definition answers : Type := Dict.t entry.

(** a provider configuration, [Dict[str, str]] *)
Definition model_info : Type := Dict.t string.

(** ** Text *)

Definition nl : string := String "010"%char EmptyString.
Definition dquote : string := String "034"%char EmptyString.

(** [str.isspace] on a 7-bit character: tab, line feed, vertical tab, form
    feed, carriage return, the four separators 28..31 and space *)
Definition is_space (c : ascii) : bool :=
  let n := nat_of_ascii c in
  (((9 <=? n) && (n <=? 13)) || ((28 <=? n) && (n <=? 32)))%nat.

Fixpoint lstrip (s : string) : string :=
  match s with
  | EmptyString => EmptyString
  | String c rest => if is_space c then lstrip rest else s
  end.

(** [s.rstrip()] on 7-bit text: drops trailing white space *)
Fixpoint rstrip (s : string) : string :=
  match s with
  | EmptyString => EmptyString
  | String c rest =>
      match rstrip rest with
      | EmptyString => if is_space c then EmptyString else String c EmptyString
      | r => String c r
      end
  end.

(** [s.strip()] on 7-bit text *)
Definition py_strip (s : string) : string := rstrip (lstrip s).

Definition upper_char (c : ascii) : ascii :=
  let n := nat_of_ascii c in
  if ((97 <=? n) && (n <=? 122))%nat then ascii_of_nat (n - 32) else c.

(** [s.upper()] on 7-bit text *)
Fixpoint py_upper (s : string) : string :=
  match s with
  | EmptyString => EmptyString
  | String c rest => String (upper_char c) (py_upper rest)
  end.

(** every character is below 128 *)
Fixpoint ascii_text (s : string) : bool :=
  match s with
  | EmptyString => true
  | String c rest => (nat_of_ascii c <? 128)%nat && ascii_text rest
  end.

(** Python's [str.strip] and [str.upper]: functions on text that, on
    7-bit text, strip the 7-bit white space and put the letters a to z in
    upper case; what they do to other text is left open *)
Record PyStr : Type := {
  str_strip : string -> string;
  str_upper : string -> string;
  strip_7bit : forall s, ascii_text s = true -> str_strip s = py_strip s;
  upper_7bit : forall s, ascii_text s = true -> str_upper s = py_upper s
}.

(** the 7-bit functions themselves *)
Definition seven_bit : PyStr :=
  {| str_strip := py_strip;
     str_upper := py_upper;
     strip_7bit := fun s _ => eq_refl;
     upper_7bit := fun s _ => eq_refl |}.

(** ** Backend requests, coroutines and the effect monad *)

(** one prompt message, [{"role": ..., "content": ...}] *)
Record message : Type := Message { role : string; content : string }.

(** what reaches a backend: the chat-completion call of the OpenAI client
    or the [generate_content] call of a Gemini model *)
Inductive request : Type :=
| OpenAIChat (model_id : string) (messages : list message) (temp : Q)
| GeminiGenerate (model_id : string) (prompt : string) (temp : Q).

(** what the body of a [try] block around a backend call ends with: the
    content of the reply, which the code stores unchecked (text, or [None]
    for a reply without text), or an [Exception] with its [str(e)] *)
Inductive outcome : Type :=
| Returned (value : pyval)
| Failed (e : string).

(** a coroutine made by [_make_api_call]: it either has its result without
    any request, or issues one request and finishes from the outcome *)
Inductive coroutine : Type :=
| Immediate (r : entry)
| Await (req : request) (k : outcome -> entry).

(** computations that issue requests and may raise: the log holds the
    requests issued so far, oldest first *)
Definition M (A : Type) : Type := list request -> res A * list request.

Definition ret {A : Type} (a : A) : M A := fun log => (Ok a, log).

Definition throw {A : Type} (e : exn) : M A := fun log => (Raise e, log).

Definition bind {A B : Type} (m : M A) (f : A -> M B) : M B :=
  fun log =>
    match m log with
    | (Ok a, log') => f a log'
    | (Raise e, log') => (Raise e, log')
    end.

(** a pure step that may raise *)
Definition lift {A : Type} (r : res A) : M A := fun log => (r, log).

Declare Scope py_scope.
Delimit Scope py_scope with py.
Notation "x <- m ;; k" := (bind m (fun x => k))
  (at level 61, m at next level, right associativity) : py_scope.
Notation "x <-- r ;; k" := (res_bind r (fun x => k))
  (at level 61, r at next level, right associativity) : py_scope.
Local Open Scope py_scope.

(** [for x in xs: acc = f(acc, x)] where the body may raise *)
Fixpoint res_fold {A B : Type} (f : B -> A -> res B) (xs : list A) (acc : B)
  : res B :=
  match xs with
  | [] => Ok acc
  | x :: rest => acc' <-- f acc x ;; res_fold f rest acc'
  end.

(** [[f(x) for x in xs]] where [f] may raise *)
Fixpoint res_map {A B : Type} (f : A -> res B) (xs : list A) : res (list B) :=
  match xs with
  | [] => Ok []
  | x :: rest => y <-- f x ;; ys <-- res_map f rest ;; Ok (y :: ys)
  end.

(** [enumerate(xs)] *)
Definition enumerate {A : Type} (xs : list A) : list (nat * A) :=
  combine (seq 0 (length xs)) xs.

(** [xs[i]] *)
Definition index {A : Type} (xs : list A) (i : nat) : res A :=
  match nth_error xs i with
  | Some x => Ok x
  | None => Raise IndexError
  end.

Section World.

(** the backends: the outcome of the [n]-th request issued in a run *)
Variable backend : nat -> request -> outcome.

(** one coroutine run to its end *)
Definition settle (c : coroutine) : M entry :=
  match c with
  | Immediate r => ret r
  | Await req k => fun log => (Ok (k (backend (length log) req)), (log ++ [req])%list)
  end.

(** [await c] *)
Definition await (c : coroutine) : M entry := settle c.

(** every coroutine of a batch is started in the order of the list *)
Fixpoint settle_all (cs : list coroutine) : M (list entry) :=
  match cs with
  | [] => ret []
  | c :: rest => r <- settle c ;; rs <- settle_all rest ;; ret (r :: rs)
  end.

(** first value filed under [i] *)
Fixpoint filed {A : Type} (i : nat) (arrivals : list (nat * A)) : option A :=
  match arrivals with
  | [] => None
  | (j, a) :: rest => if Nat.eqb j i then Some a else filed i rest
  end.

(** [asyncio.gather] over the coroutines [cs], awaited: the calls complete
    in the order [sched] (positions in [cs]); each result is filed under
    the position of its awaitable, and the list returned is read off by
    position *)
Definition gather (sched : list nat) (cs : list coroutine) : M (list entry) :=
  settled <- settle_all cs ;;
  let arrivals :=
    flat_map (fun i => match nth_error settled i with
                       | Some r => [(i, r)]
                       | None => []
                       end) sched in
  ret (flat_map (fun i => match filed i arrivals with
                          | Some r => [r]
                          | None => []
                          end) (seq 0 (length cs))).

End World.

(** ** [llm_handler.py]: the handler *)

Record LLMHandler : Type := Handler {
  openai_api_key : string;
  gemini_api_key : string;
  models : list model_info;
  judge_model_id : string;
  judge_api : string
}.

(** the dictionary literal [{k1: v1, k2: v2, ...}] *)
Definition literal {V : Type} (kvs : list (string * V)) : Dict.t V :=
  Dict.update Dict.empty kvs.

(** [not key] for a value of [os.getenv]: unset or empty *)
Definition falsy_key (v : option string) : bool :=
  match v with
  | None => true
  | Some s => String.eqb s EmptyString
  end.

(** [LLMHandler.__init__]; [getenv] is [os.getenv], and the constructor of
    the OpenAI client and [genai.configure] are taken to return *)
Definition __init__ (getenv : string -> option string) : res LLMHandler :=
  let openai_key := getenv "OPENAI_API_KEY" in
  let gemini_key := getenv "GEMINI_API_KEY" in
  if falsy_key openai_key then
    Raise (ValueError "OPENAI_API_KEY not found in .env file.")
  else if falsy_key gemini_key then
    Raise (ValueError "GEMINI_API_KEY not found in .env file.")
  else
    Ok {| openai_api_key := match openai_key with Some k => k | None => EmptyString end;
          gemini_api_key := match gemini_key with Some k => k | None => EmptyString end;
          models :=
            [ literal [("name", "GPT-4o-mini"); ("model_id", "gpt-4o-mini");
                       ("api", "openai")];
              literal [("name", "Gemini-1.5-Flash");
                       ("model_id", "gemini-1.5-flash-latest");
                       ("api", "gemini")] ];
          judge_model_id := "gpt-4o-mini";
          judge_api := "openai" |}.

(** [_call_openai]: the [try] block and its [except Exception] *)
Definition _call_openai (model_id : string) (messages : list message) (temp : Q)
  : coroutine :=
  Await (OpenAIChat model_id messages temp)
    (fun o =>
       match o with
       | Returned value => literal [("success", VBool true); ("content", value)]
       | Failed e =>
           literal [("success", VBool false); ("error", VStr ("OpenAI Error: " ++ e))]
       end).

(** [sep.join(parts)] *)
Fixpoint join (sep : string) (parts : list string) : string :=
  match parts with
  | [] => EmptyString
  | [p] => p
  | p :: rest => p ++ sep ++ join sep rest
  end.

(** [_call_gemini_sync], run through [asyncio.to_thread]: the contents of
    the user messages are joined by a backslash and the letter n *)
Definition _call_gemini_sync (model_id : string) (messages : list message)
  (temp : Q) : coroutine :=
  let gemini_messages :=
    map content (filter (fun m => String.eqb (role m) "user") messages) in
  let prompt := join "\n" gemini_messages in
  Await (GeminiGenerate model_id prompt temp)
    (fun o =>
       match o with
       | Returned value => literal [("success", VBool true); ("content", value)]
       | Failed e =>
           literal [("success", VBool false); ("error", VStr ("Gemini Error: " ++ e))]
       end).

(** [_make_api_call] *)
Definition _make_api_call (api model_id : string) (messages : list message)
  (temp : Q) : coroutine :=
  if String.eqb api "openai" then _call_openai model_id messages temp
  else if String.eqb api "gemini" then _call_gemini_sync model_id messages temp
  else Immediate (literal [("success", VBool false);
                           ("error", VStr ("Unknown API: " ++ api))]).

(** the default of the parameter [temp] *)
Definition default_temp : Q := 7 # 10.

(** [get_models_list] *)
Definition get_models_list (h : LLMHandler) : list model_info := models h.

Definition with_models (h : LLMHandler) (ms : list model_info) : LLMHandler :=
  {| openai_api_key := openai_api_key h;
     gemini_api_key := gemini_api_key h;
     models := ms;
     judge_model_id := judge_model_id h;
     judge_api := judge_api h |}.

(** the dictionary [add_model] appends *)
Definition added_model (name model_id : string) (display_name : option string)
  : model_info :=
  let display_name := match display_name with Some d => d | None => name end in
  literal [("name", name); ("model_id", model_id); ("display_name", display_name)].

(** [add_model] *)
Definition add_model (h : LLMHandler) (name model_id : string)
  (display_name : option string) : LLMHandler :=
  with_models h (models h ++ [added_model name model_id display_name])%list.

(** [remove_model]; a configuration without a name raises [KeyError] *)
Definition remove_model (h : LLMHandler) (name : string) : res LLMHandler :=
  kept <-- res_fold (fun acc m =>
                       n <-- subscript m "name" ;;
                       Ok (if String.eqb n name then acc else (acc ++ [m])%list))
                    (models h) [] ;;
  Ok (with_models h kept).

(** the tasks of [get_initial_answers], one coroutine per configuration *)
Definition initial_tasks (h : LLMHandler) (question : string)
  : res (list coroutine) :=
  let messages := [Message "user" question] in
  res_map (fun m =>
             api <-- subscript m "api" ;;
             model_id <-- subscript m "model_id" ;;
             Ok (_make_api_call api model_id messages default_temp))
          (models h).

(** the loop of [get_initial_answers] over [enumerate(results)] *)
Definition collect_initial (h : LLMHandler) (results : list entry) : res answers :=
  res_fold (fun (acc : answers) ir =>
              model_info <-- index (models h) (fst ir) ;;
              name <-- subscript model_info "name" ;;
              Ok (Dict.set name
                    (Dict.update (snd ir) (Dict.map_values VStr model_info)) acc))
           (enumerate results) Dict.empty.

(** the comprehension [answer_list] of [are_answers_similar] *)
Definition answer_list (ans : answers) : res (list string) :=
  res_map (fun kv =>
             name <-- subscript (snd kv) "name" ;;
             text <-- subscript (snd kv) "content" ;;
             Ok ("Answer from " ++ py_str name ++ ":\n" ++ py_str text))
          (filter (fun kv => Dict.mem "content" (snd kv)) ans).

(** the f-string [comparison_prompt] *)
Definition comparison_prompt (question first second : string) : string :=
  "The user asked: " ++ dquote ++ question ++ dquote ++ nl ++
  "I received two answers:" ++ nl ++
  "---" ++ nl ++
  first ++ nl ++
  "---" ++ nl ++
  second ++ nl ++
  "---" ++ nl ++
  "Do these answers provide the same core information? Respond with only YES or NO.".

(** [result.get("content", EmptyString).strip().upper() == "YES"]; a
    content that is not text has no method [strip] *)
Definition verdict (py : PyStr) (result : entry) : res bool :=
  match Dict.get "content" result with
  | None => Ok (String.eqb (str_upper py (str_strip py EmptyString)) "YES")
  | Some (VStr s) => Ok (String.eqb (str_upper py (str_strip py s)) "YES")
  | Some _ => Raise (AttributeError "strip")
  end.

(** [next((m for m in self.models if m["name"] != model_name), None)] *)
Fixpoint next_other (ms : list model_info) (model_name : string)
  : res (option model_info) :=
  match ms with
  | [] => Ok None
  | m :: rest =>
      n <-- subscript m "name" ;;
      if negb (String.eqb n model_name) then Ok (Some m)
      else next_other rest model_name
  end.

(** the f-string [feedback_prompt] *)
Definition feedback_prompt (question own other : string) : string :=
  "Original question: " ++ dquote ++ question ++ dquote ++ nl ++
  "Your answer: " ++ dquote ++ own ++ dquote ++ nl ++
  "The other model's answer: " ++ dquote ++ other ++ dquote ++ nl ++
  "Review both. If yours is best, defend it. Otherwise, provide a revised answer. Respond with only the final answer.".

(** one turn of the first loop of [get_revised_answers]: [None] is
    [continue], otherwise the pair appended to [tasks] *)
Definition revision_task (h : LLMHandler) (question : string)
  (original_answers : answers) (model_to_revise : model_info)
  : res (option (string * coroutine)) :=
  model_name <-- subscript model_to_revise "name" ;;
  other_model <-- next_other (models h) model_name ;;
  match other_model with
  | None => Ok None
  | Some [] => Ok None
  | Some other_model =>
      if negb (Dict.mem model_name original_answers) then Ok None
      else
        other_name <-- subscript other_model "name" ;;
        if negb (Dict.mem other_name original_answers) then Ok None
        else
          own <-- subscript original_answers model_name ;;
          own_content <-- subscript own "content" ;;
          other_name' <-- subscript other_model "name" ;;
          other <-- subscript original_answers other_name' ;;
          other_content <-- subscript other "content" ;;
          let messages :=
            [Message "user"
               (feedback_prompt question (py_str own_content) (py_str other_content))] in
          api <-- subscript model_to_revise "api" ;;
          model_id <-- subscript model_to_revise "model_id" ;;
          Ok (Some (model_name, _make_api_call api model_id messages default_temp))
  end.

(** the first loop of [get_revised_answers] *)
Definition revision_tasks (h : LLMHandler) (question : string)
  (original_answers : answers) : res (list (string * coroutine)) :=
  res_fold (fun tasks m =>
              t <-- revision_task h question original_answers m ;;
              Ok (match t with Some t => (tasks ++ [t])%list | None => tasks end))
           (models h) [].

(** [d.get(k)] as a Python value *)
Definition get_or_none (k : string) (d : entry) : pyval :=
  match Dict.get k d with Some v => v | None => VNone end.

(** the entry the second loop of [get_revised_answers] stores for a
    provider, from its original entry and the result of its call *)
Definition revised_entry (original : res entry) (result : entry) : res entry :=
  success <-- subscript result "success" ;;
  if truthy success then
    original <-- original ;;
    new_content <-- subscript result "content" ;;
    Ok (Dict.set "original_content" (get_or_none "content" original)
          (Dict.set "content" new_content original))
  else
    original <-- original ;;
    error <-- subscript result "error" ;;
    Ok (Dict.set "error" error original).

(** the second loop of [get_revised_answers] *)
Definition collect_revised (original_answers : answers)
  (tasks : list (string * coroutine)) (results : list entry) : res answers :=
  res_fold (fun (acc : answers) it =>
              let model_name := fst (snd it) in
              result <-- index results (fst it) ;;
              e <-- revised_entry (subscript original_answers model_name) result ;;
              Ok (Dict.set model_name e acc))
           (enumerate tasks) Dict.empty.

Section Handler.

Variable backend : nat -> request -> outcome.
Variable py : PyStr.

(** [get_initial_answers]; [sched] is the order in which the calls of
    the batch complete *)
Definition get_initial_answers (h : LLMHandler) (question : string)
  (sched : list nat) : M answers :=
  tasks <- lift (initial_tasks h question) ;;
  results <- gather backend sched tasks ;;
  lift (collect_initial h results).

(** [are_answers_similar] *)
Definition are_answers_similar (h : LLMHandler) (question : string)
  (ans : answers) : M bool :=
  answer_list <- lift (answer_list ans) ;;
  match answer_list with
  | first :: second :: _ =>
      let messages := [Message "user" (comparison_prompt question first second)] in
      result <- await backend
                  (_make_api_call (judge_api h) (judge_model_id h) messages 0) ;;
      lift (verdict py result)
  | _ => ret true
  end.

(** [get_revised_answers] *)
Definition get_revised_answers (h : LLMHandler) (question : string)
  (original_answers : answers) (sched : list nat) : M answers :=
  tasks <- lift (revision_tasks h question original_answers) ;;
  results <- gather backend sched (map snd tasks) ;;
  lift (collect_revised original_answers tasks results).

End Handler.

(** ** [app.py]: orchestration and labels *)

(** the entry [process_validation] stores for an initial answer *)
Definition original_entry (data : entry) : entry :=
  Dict.set "display_name" (get_or_none "name" data)
    (Dict.set "label_class" (VStr "original-label")
       (Dict.set "label" (VStr "Original") data)).

(** the loop over [initial_answers.items()] *)
Definition initial_results (initial_answers : answers) : answers :=
  fold_left (fun (results : answers) kv =>
               Dict.set (fst kv) (original_entry (snd kv)) results)
            initial_answers Dict.empty.

(** what the loop over [revised_answers.items()] does to one entry of
    [results] *)
Definition merge_revised (current data : entry) : entry :=
  let current :=
    match Dict.get "content" current with
    | Some c => Dict.set "original_content" c current
    | None => current
    end in
  Dict.update current
    (Dict.set "label_class" (VStr "revised-label")
       (Dict.set "label" (VStr "Revised") data)).

(** the loop over [revised_answers.items()] *)
Definition merge_results (results revised_answers : answers) : res answers :=
  res_fold (fun (results : answers) kv =>
              current <-- subscript results (fst kv) ;;
              Ok (Dict.set (fst kv) (merge_revised current (snd kv)) results))
           revised_answers results.

(** the part of [st.session_state] that [process_validation] writes *)
Record session : Type := Session {
  results : answers;
  revision_round : bool;
  processing_complete : bool
}.

Section App.

Variable backend : nat -> request -> outcome.
Variable py : PyStr.

(** [process_validation]; the progress bar is left out, and the final
    message is kept as the flag [revision_round] (false for the message
    of agreement, true for the message of a finished re-feedback) *)
Definition process_validation (question : string) (llm_handler : LLMHandler)
  (sched1 sched2 : list nat) : M session :=
  initial_answers <- get_initial_answers backend llm_handler question sched1 ;;
  let results := initial_results initial_answers in
  answers_are_similar <-
    are_answers_similar backend py llm_handler question initial_answers ;;
  if answers_are_similar then
    ret (Session results false true)
  else
    revised_answers <-
      get_revised_answers backend llm_handler question initial_answers sched2 ;;
    results <- lift (merge_results results revised_answers) ;;
    ret (Session results true true).

End App.

(** what [main] shows for one entry of the results *)
Inductive shown : Type :=
| ShownError (error : pyval)
| ShownAnswer (label label_class content : pyval).

(** [d.get(k, default)] *)
Definition get_default (k : string) (default : pyval) (d : entry) : pyval :=
  match Dict.get k d with Some v => v | None => default end.

(** the body of the loop of [main] over the results *)
Definition show (answer_data : entry) : res shown :=
  if Dict.mem "error" answer_data then
    error <-- subscript answer_data "error" ;;
    Ok (ShownError error)
  else
    let label := get_default "label" (VStr "Answer") answer_data in
    let label_class := get_default "label_class" (VStr "original-label") answer_data in
    let original_content :=
      get_default "original_content" (get_or_none "content" answer_data) answer_data in
    let defended :=
      pyval_eqb label (VStr "Revised")
      && pyval_eqb (get_or_none "content" answer_data) original_content in
    let label := if defended then VStr "Defended" else label in
    let label_class := if defended then VStr "defended-label" else label_class in
    content <-- subscript answer_data "content" ;;
    Ok (ShownAnswer label label_class content).

(** the label [main] shows for an entry, if it shows one *)
Definition shown_label (answer_data : entry) : option pyval :=
  match show answer_data with
  | Ok (ShownAnswer label _ _) => Some label
  | _ => None
  end.

(** ** Notions of the specification *)

(** the CallResult of an adapter whose error messages start with [tag]:
    success with the content, or failure with the tagged message *)
Definition call_result (tag : string) (o : outcome) : entry :=
  match o with
  | Returned value => [("success", VBool true); ("content", value)]
  | Failed e => [("success", VBool false); ("error", VStr (tag ++ e))]
  end.

(** construction stops with the configuration error, a [ValueError] *)
Definition configuration_error {A : Type} (r : res A) : Prop :=
  exists msg, r = Raise (ValueError msg).

(** a key that the environment does not hold at all *)
Definition absent (v : option string) : Prop := v = None.

(** a key that is not held or is held with the empty text *)
Definition absent_or_empty (v : option string) : Prop :=
  v = None \/ v = Some EmptyString.

(** an environment that holds both keys, the first with the empty text *)
Definition env_empty_openai_key (k : string) : option string :=
  if String.eqb k "OPENAI_API_KEY" then Some EmptyString
  else if String.eqb k "GEMINI_API_KEY" then Some "g-key"
  else None.

(** an environment that holds both keys *)
Definition env_both_keys (k : string) : option string :=
  if String.eqb k "OPENAI_API_KEY" then Some "o-key"
  else if String.eqb k "GEMINI_API_KEY" then Some "g-key"
  else None.

(** the handler [__init__] builds from [env_both_keys] *)
Definition default_handler : LLMHandler :=
  {| openai_api_key := "o-key";
     gemini_api_key := "g-key";
     models :=
       [ [("name", "GPT-4o-mini"); ("model_id", "gpt-4o-mini"); ("api", "openai")];
         [("name", "Gemini-1.5-Flash"); ("model_id", "gemini-1.5-flash-latest");
          ("api", "gemini")] ];
     judge_model_id := "gpt-4o-mini";
     judge_api := "openai" |}.

(** a backend on which every call fails *)
Definition backend_down (n : nat) (r : request) : outcome := Failed "timeout".

(** the prompt [_call_gemini_sync] sends *)
Definition gemini_prompt_of (messages : list message) : string :=
  join "\n" (map content (filter (fun m => String.eqb (role m) "user") messages)).

(** a result of the dispatcher: a call result of one of the adapters or
    the failure for an unknown capability *)
Definition dispatched (result : entry) : Prop :=
  (exists tag o, result = call_result tag o)
  \/ exists api, result = [("success", VBool false);
                           ("error", VStr ("Unknown API: " ++ api))].

(** the name under which a configuration is registered *)
Definition provider_name (m : model_info) : string :=
  match Dict.get "name" m with Some n => n | None => EmptyString end.

(** the names of the configured providers, in registration order *)
Definition provider_names (h : LLMHandler) : list string :=
  map provider_name (models h).

(** a ProviderConfig of the data model: name, model identifier and
    capability are all there *)
Definition configured (m : model_info) : bool :=
  Dict.mem "name" m && Dict.mem "model_id" m && Dict.mem "api" m.

(** the entries of a result set that carry usable content *)
Definition content_bearing (ans : answers) : list (string * entry) :=
  filter (fun kv => Dict.mem "content" (snd kv)) ans.

(** white space only *)
Fixpoint all_space (s : string) : bool :=
  match s with
  | EmptyString => true
  | String c rest => is_space c && all_space rest
  end.

(** the character is the letter, in one of its two cases *)
Definition letter (upper lower c : ascii) : Prop := c = upper \/ c = lower.

(** the three letters of YES, each in any case *)
Definition yes_any_case (core : string) : Prop :=
  exists y e s,
    core = String y (String e (String s EmptyString))
    /\ letter "Y"%char "y"%char y
    /\ letter "E"%char "e"%char e
    /\ letter "S"%char "s"%char s.

(** the reply is YES in any letter case between white space *)
Definition trimmed_yes (reply : string) : Prop :=
  exists pre core post,
    reply = pre ++ core ++ post
    /\ all_space pre = true /\ all_space post = true /\ yes_any_case core.

(** a backend whose OpenAI calls fail and whose Gemini calls answer *)
Definition backend_openai_down (n : nat) (r : request) : outcome :=
  match r with
  | OpenAIChat _ _ _ => Failed "timeout"
  | GeminiGenerate _ _ _ => Returned (VStr "4")
  end.

(** the initial result set of the default handler on that backend *)
Definition initial_openai_down : answers :=
  [ ("GPT-4o-mini",
     [("success", VBool false); ("error", VStr "OpenAI Error: timeout");
      ("name", VStr "GPT-4o-mini"); ("model_id", VStr "gpt-4o-mini");
      ("api", VStr "openai")]);
    ("Gemini-1.5-Flash",
     [("success", VBool true); ("content", VStr "4");
      ("name", VStr "Gemini-1.5-Flash");
      ("model_id", VStr "gemini-1.5-flash-latest"); ("api", VStr "gemini")]) ].

(** an initial result set of the default handler with two answers *)
Definition initial_two_answers : answers :=
  [ ("GPT-4o-mini",
     [("success", VBool true); ("content", VStr "four");
      ("name", VStr "GPT-4o-mini"); ("model_id", VStr "gpt-4o-mini");
      ("api", VStr "openai")]);
    ("Gemini-1.5-Flash",
     [("success", VBool true); ("content", VStr "4");
      ("name", VStr "Gemini-1.5-Flash");
      ("model_id", VStr "gemini-1.5-flash-latest"); ("api", VStr "gemini")]) ].

(** a backend that answers every request with a padded lower-case yes *)
Definition backend_says_yes (n : nat) (r : request) : outcome :=
  Returned (VStr ("  yes" ++ nl)).

(** the comparison prompt as the specification prints its template: each
    answer is introduced by its provider on a line of its own *)
Definition template_prompt (question nameA contentA nameB contentB : string)
  : string :=
  "The user asked: " ++ dquote ++ question ++ dquote ++ nl ++
  "I received two answers:" ++ nl ++
  "---" ++ nl ++
  "Answer from " ++ nameA ++ ":" ++ nl ++
  contentA ++ nl ++
  "---" ++ nl ++
  "Answer from " ++ nameB ++ ":" ++ nl ++
  contentB ++ nl ++
  "---" ++ nl ++
  "Do these answers provide the same core information? Respond with only YES or NO.".

(** exactly one of [content] and [error] is in the entry *)
Definition content_xor_error (e : entry) : bool :=
  xorb (Dict.mem "content" e) (Dict.mem "error" e).


(** a backend that answers, except that Gemini fails on every prompt but
    the bare question *)
Definition backend_gemini_quota (n : nat) (r : request) : outcome :=
  match r with
  | OpenAIChat _ _ _ => Returned (VStr "four")
  | GeminiGenerate _ prompt _ =>
      if String.eqb prompt "2+2?" then Returned (VStr "4") else Failed "quota"
  end.

(** the stored fields of an entry whose revision call succeeded: the label
    [Revised], the original content recorded, no error *)
Definition successfully_revised (e : entry) : Prop :=
  Dict.get "label" e = Some (VStr "Revised")
  /\ Dict.mem "original_content" e = true
  /\ Dict.mem "error" e = false.

(** what [process_validation] leaves in an entry of the results: the
    label [Original], or the label [Revised] with an error or with both
    contents *)
Definition protocol_entry (e : entry) : Prop :=
  Dict.get "label" e = Some (VStr "Original")
  \/ (Dict.get "label" e = Some (VStr "Revised")
      /\ (Dict.mem "error" e = true
          \/ (Dict.mem "original_content" e = true
              /\ Dict.mem "content" e = true))).

(** ** Further notions *)

(** the request a coroutine issues when it is run, if any *)
Definition requests_of (c : coroutine) : list request :=
  match c with
  | Immediate _ => []
  | Await req _ => [req]
  end.

(** the request that asks a configured provider the bare question *)
Definition initial_request (question : string) (m : model_info) : list request :=
  match Dict.get "api" m, Dict.get "model_id" m with
  | Some api, Some model_id =>
      if String.eqb api "openai" then
        [OpenAIChat model_id [Message "user" question] default_temp]
      else if String.eqb api "gemini" then
        [GeminiGenerate model_id question default_temp]
      else []
  | _, _ => []
  end.

(** the fields the download of [main] leaves out *)
Definition hidden_fields : list string := ["label_class"; "api"; "model_id"].

(** [k in hidden_fields] *)
Definition hidden (k : string) : bool := existsb (String.eqb k) hidden_fields.

(** the comprehension [results_to_save] of [main] *)
Definition results_to_save (results : answers) : answers :=
  literal (map (fun kv =>
                  (fst kv,
                   literal (filter (fun kv2 => negb (hidden (fst kv2))) (snd kv))))
               results).

(** every configuration has a name *)
Definition all_named (h : LLMHandler) : bool :=
  forallb (Dict.mem "name") (models h).

(** a configuration with the fields the task list of a gather reads *)
Definition callable (m : model_info) : bool :=
  Dict.mem "api" m && Dict.mem "model_id" m.

(** a configuration without the field [name] *)
Definition nameless : model_info :=
  [("model_id", "gpt-4o-mini"); ("api", "openai")].

(** a result set whose only entry has content but no name *)
Definition unnamed_answer : answers :=
  [("GPT-4o-mini", [("success", VBool true); ("content", VStr "four")])].

(** results as the download sees them after a run in which one provider
    defended its answer *)
Definition results_example : answers :=
  [ ("GPT-4o-mini",
     [("success", VBool true); ("content", VStr "four");
      ("name", VStr "GPT-4o-mini"); ("model_id", VStr "gpt-4o-mini");
      ("api", VStr "openai"); ("label", VStr "Revised");
      ("label_class", VStr "revised-label");
      ("display_name", VStr "GPT-4o-mini"); ("original_content", VStr "four")]) ].

(** the call [are_answers_similar] makes to the judge about two answers *)
Definition judge_call (h : LLMHandler) (question first second : string)
  : coroutine :=
  _make_api_call (judge_api h) (judge_model_id h)
    [Message "user" (comparison_prompt question first second)] 0.

(** the handler left after the Gemini provider is removed *)
Definition openai_only : LLMHandler :=
  with_models default_handler
    [[("name", "GPT-4o-mini"); ("model_id", "gpt-4o-mini"); ("api", "openai")]].

(** a backend on which the providers answer and the third request of a
    run, the one to the judge, is answered without text *)
Definition backend_judge_no_text (n : nat) (r : request) : outcome :=
  if Nat.eqb n 2 then Returned VNone
  else match r with
       | OpenAIChat _ _ _ => Returned (VStr "four")
       | GeminiGenerate _ _ _ => Returned (VStr "4")
       end.

(** a run gives this result and this log for every order in which the
    two calls of each batch complete *)
Definition run_is (backend : nat -> request -> outcome) (py : PyStr)
  (question : string) (h : LLMHandler) (log : list request)
  (result : res session) (log' : list request) : Prop :=
  forall sched1 sched2,
    Permutation sched1 [0; 1] -> Permutation sched2 [0; 1] ->
    process_validation backend py question h sched1 sched2 log = (result, log').

(** * Properties *)

(** ** Dictionaries *)

Module DictFacts.
Section Facts.
Context {V : Type}.
Implicit Types (d a b : Dict.t V) (k : string) (v : V).

Lemma get_set_same k v d : Dict.get k (Dict.set k v d) = Some v.
Proof.
  induction d as [|[k' v'] d IH]; simpl.
  - now rewrite String.eqb_refl.
  - destruct (String.eqb k' k) eqn:E; simpl; rewrite E; auto.
Qed.

Lemma get_set_other k k' v d :
  k <> k' -> Dict.get k' (Dict.set k v d) = Dict.get k' d.
Proof.
  intros Hne. induction d as [|[k0 v0] d IH]; simpl.
  - destruct (String.eqb k k') eqn:E; auto.
    apply String.eqb_eq in E. contradiction.
  - destruct (String.eqb k0 k) eqn:E; simpl.
    + apply String.eqb_eq in E. subst k0.
      destruct (String.eqb k k') eqn:E'; auto.
      apply String.eqb_eq in E'. contradiction.
    + now rewrite IH.
Qed.

Lemma mem_set k k' v d :
  Dict.mem k' (Dict.set k v d) = String.eqb k k' || Dict.mem k' d.
Proof.
  unfold Dict.mem. destruct (String.eqb k k') eqn:E.
  - apply String.eqb_eq in E. subst. now rewrite get_set_same.
  - apply String.eqb_neq in E. now rewrite get_set_other.
Qed.

Lemma mem_update k a b :
  Dict.mem k (Dict.update a b) = Dict.mem k a || Dict.mem k b.
Proof.
  unfold Dict.update. revert a.
  induction b as [|[k' v'] b IH]; intros a; simpl.
  - now rewrite orb_false_r.
  - rewrite IH, mem_set. unfold Dict.mem at 4. simpl.
    destruct (String.eqb k' k); simpl.
    + now rewrite !orb_true_r.
    + reflexivity.
Qed.

Lemma get_update_absent k a b :
  Dict.mem k b = false -> Dict.get k (Dict.update a b) = Dict.get k a.
Proof.
  unfold Dict.update. revert a.
  induction b as [|[k' v'] b IH]; intros a Hb; simpl; auto.
  unfold Dict.mem in Hb. simpl in Hb.
  destruct (String.eqb k' k) eqn:E; [discriminate|].
  rewrite IH by exact Hb. apply get_set_other.
  now apply String.eqb_neq.
Qed.

Lemma mem_true_get k d : Dict.mem k d = true <-> exists v, Dict.get k d = Some v.
Proof.
  unfold Dict.mem. destruct (Dict.get k d); split; eauto; try discriminate.
  intros [v Hv]. discriminate.
Qed.

Lemma mem_false_get k d : Dict.mem k d = false <-> Dict.get k d = None.
Proof.
  unfold Dict.mem. destruct (Dict.get k d); split; auto; discriminate.
Qed.

Lemma mem_keys k d : Dict.mem k d = true <-> In k (Dict.keys d).
Proof.
  unfold Dict.mem. induction d as [|[k' v'] d IH]; simpl.
  - split; [discriminate | tauto].
  - destruct (String.eqb k' k) eqn:E.
    + apply String.eqb_eq in E. tauto.
    + apply String.eqb_neq in E. rewrite IH. tauto.
Qed.

Lemma keys_set k v d :
  Dict.keys (Dict.set k v d)
  = if Dict.mem k d then Dict.keys d else (Dict.keys d ++ [k])%list.
Proof.
  unfold Dict.mem. induction d as [|[k' v'] d IH]; simpl; auto.
  destruct (String.eqb k' k) eqn:E; simpl; auto.
  rewrite IH. now destruct (Dict.get k d).
Qed.

Lemma nodup_set k v d : NoDup (Dict.keys d) -> NoDup (Dict.keys (Dict.set k v d)).
Proof.
  intros Hd. rewrite keys_set. destruct (Dict.mem k d) eqn:E; auto.
  apply NoDup_app; auto.
  - constructor; [tauto | constructor].
  - intros x Hx [<-|[]]. apply mem_keys in Hx. congruence.
Qed.

Lemma nodup_update a b : NoDup (Dict.keys a) -> NoDup (Dict.keys (Dict.update a b)).
Proof.
  unfold Dict.update. revert a.
  induction b as [|[k v] b IH]; intros a Ha; simpl; auto.
  apply IH. now apply nodup_set.
Qed.

Lemma get_update_present k v a b :
  NoDup (Dict.keys b) -> Dict.get k b = Some v ->
  Dict.get k (Dict.update a b) = Some v.
Proof.
  unfold Dict.update. revert a.
  induction b as [|[k' v'] b IH]; intros a Hnd Hb; simpl in *; [discriminate|].
  inversion Hnd as [|? ? Hnotin Hnd']; subst.
  destruct (String.eqb k' k) eqn:E.
  - apply String.eqb_eq in E. subst k'. injection Hb as ->.
    change (Dict.get k (Dict.update (Dict.set k v a) b) = Some v).
    rewrite get_update_absent; [apply get_set_same|].
    destruct (Dict.mem k b) eqn:M; auto.
    apply mem_keys in M. contradiction.
  - now apply IH.
Qed.

Lemma in_set k k' v v' d :
  In (k', v') (Dict.set k v d) -> (k' = k /\ v' = v) \/ In (k', v') d.
Proof.
  induction d as [|[k0 v0] d IH]; simpl.
  - intros [H|[]]. injection H as <- <-. auto.
  - destruct (String.eqb k0 k) eqn:E; simpl.
    + apply String.eqb_eq in E. subst k0.
      intros [H|H]; [injection H as <- <-|]; auto.
    + intros [H|H]; auto. destruct (IH H); auto.
Qed.

Lemma get_in k v d : Dict.get k d = Some v -> In (k, v) d.
Proof.
  induction d as [|[k0 v0] d IH]; simpl; [discriminate|].
  destruct (String.eqb k0 k) eqn:E.
  - apply String.eqb_eq in E. subst k0. intros H. injection H as <-. auto.
  - auto.
Qed.

End Facts.

Lemma mem_map_values {V W : Type} (f : V -> W) k (d : Dict.t V) :
  Dict.mem k (Dict.map_values f d) = Dict.mem k d.
Proof.
  unfold Dict.mem. induction d as [|[k' v'] d IH]; simpl; auto.
  destruct (String.eqb k' k); auto.
Qed.

End DictFacts.
Import DictFacts.

(** ** Provider adapters *)

Lemma settle_openai (backend : nat -> request -> outcome) model_id messages temp log :
  settle backend (_call_openai model_id messages temp) log
  = (Ok (call_result "OpenAI Error: "
           (backend (length log) (OpenAIChat model_id messages temp))),
     (log ++ [OpenAIChat model_id messages temp])%list).
Proof.
  unfold settle, _call_openai. destruct (backend _ _); reflexivity.
Qed.

Lemma settle_gemini (backend : nat -> request -> outcome) model_id messages temp log :
  settle backend (_call_gemini_sync model_id messages temp) log
  = (Ok (call_result "Gemini Error: "
           (backend (length log)
              (GeminiGenerate model_id (gemini_prompt_of messages) temp))),
     (log ++ [GeminiGenerate model_id (gemini_prompt_of messages) temp])%list).
Proof.
  unfold settle, _call_gemini_sync, gemini_prompt_of.
  destruct (backend _ _); reflexivity.
Qed.

(** C7. Whatever the backend does with a request, each provider adapter
    returns and never raises: when the backend call raises an exception the
    result is the failure [{success: False, error: ...}] whose message is
    tagged with the name of the backend, and when the backend answers the
    result is [{success: True, content: ...}]. *)
Theorem adapters_return_call_results :
  forall (backend : nat -> request -> outcome) model_id messages temp log,
    let openai_request := OpenAIChat model_id messages temp in
    await backend (_call_openai model_id messages temp) log
    = (Ok (call_result "OpenAI Error: " (backend (length log) openai_request)),
       (log ++ [openai_request])%list)
    /\ exists prompt,
         let gemini_request := GeminiGenerate model_id prompt temp in
         await backend (_call_gemini_sync model_id messages temp) log
         = (Ok (call_result "Gemini Error: " (backend (length log) gemini_request)),
            (log ++ [gemini_request])%list).
Proof.
  intros backend model_id messages temp log. split.
  - apply settle_openai.
  - exists (gemini_prompt_of messages). apply settle_gemini.
Qed.

(** the dispatcher never raises *)
Lemma make_api_call_settles (backend : nat -> request -> outcome)
  api model_id messages temp log :
  exists result log',
    settle backend (_make_api_call api model_id messages temp) log = (Ok result, log')
    /\ dispatched result.
Proof.
  unfold _make_api_call, dispatched.
  destruct (String.eqb api "openai").
  - rewrite settle_openai. do 2 eexists. split; [reflexivity|].
    left. do 2 eexists. reflexivity.
  - destruct (String.eqb api "gemini").
    + rewrite settle_gemini. do 2 eexists. split; [reflexivity|].
      left. do 2 eexists. reflexivity.
    + do 2 eexists. split; [reflexivity|]. right. exists api. reflexivity.
Qed.

(** ** Construction *)

(** C8, as stated, fails: an environment that holds both keys, one of them
    with the empty text, stops construction although no key is absent. *)
Lemma init_fails_with_both_keys_held :
  ~ (configuration_error (__init__ env_empty_openai_key)
     <-> absent (env_empty_openai_key "OPENAI_API_KEY")
         \/ absent (env_empty_openai_key "GEMINI_API_KEY")).
Proof.
  intros [Hfail _].
  destruct Hfail as [H|H]; [|discriminate H|discriminate H].
  eexists. reflexivity.
Qed.

(** C8, amended. Construction stops with the configuration error exactly
    when one of the two keys is absent or empty; otherwise it returns a
    handler; and no call made through the dispatcher afterwards raises, so
    keys are examined at construction only. *)
Theorem init_fails_iff_key_absent_or_empty :
  forall getenv,
    let unusable :=
      absent_or_empty (getenv "OPENAI_API_KEY")
      \/ absent_or_empty (getenv "GEMINI_API_KEY") in
    (configuration_error (__init__ getenv) <-> unusable)
    /\ ((exists h, __init__ getenv = Ok h) <-> ~ unusable)
    /\ forall (backend : nat -> request -> outcome) api model_id messages temp log,
         exists result log',
           await backend (_make_api_call api model_id messages temp) log
           = (Ok result, log').
Proof.
  intros getenv unusable. subst unusable.
  unfold configuration_error, absent_or_empty, __init__.
  repeat split.
  - destruct (getenv "OPENAI_API_KEY") as [[|c s]|]; simpl; auto.
    destruct (getenv "GEMINI_API_KEY") as [[|c' s']|]; simpl; auto.
    intros [msg H]. discriminate.
  - destruct (getenv "OPENAI_API_KEY") as [[|c s]|]; simpl; eauto.
    destruct (getenv "GEMINI_API_KEY") as [[|c' s']|]; simpl; eauto.
    intros [[H|H]|[H|H]]; discriminate.
  - destruct (getenv "OPENAI_API_KEY") as [[|c s]|]; simpl;
      try (intros [h H]; discriminate).
    destruct (getenv "GEMINI_API_KEY") as [[|c' s']|]; simpl;
      try (intros [h H]; discriminate).
    intros _ [[H|H]|[H|H]]; discriminate.
  - destruct (getenv "OPENAI_API_KEY") as [[|c s]|]; simpl;
      try (intros H; exfalso; apply H; auto; fail).
    destruct (getenv "GEMINI_API_KEY") as [[|c' s']|]; simpl;
      try (intros H; exfalso; apply H; auto; fail).
    eauto.
  - intros backend api model_id messages temp log.
    destruct (make_api_call_settles backend api model_id messages temp log)
      as (result & log' & H & _).
    eauto.
Qed.

(** ** Registry *)

Lemma initial_tasks_raise (messages : list message) (ms : list model_info) m :
  In m ms -> Dict.mem "api" m = false ->
  exists key,
    res_map (fun m =>
               api <-- subscript m "api" ;;
               model_id <-- subscript m "model_id" ;;
               Ok (_make_api_call api model_id messages default_temp)) ms
    = Raise (KeyError key).
Proof.
  intros Hin Hapi. induction ms as [|m0 ms IH]; [contradiction|].
  simpl. unfold subscript at 1.
  destruct (Dict.get "api" m0) as [api|] eqn:Eapi; simpl; [|eauto].
  unfold subscript at 1.
  destruct (Dict.get "model_id" m0) as [mid|] eqn:Emid; simpl; [|eauto].
  destruct Hin as [->|Hin].
  - apply mem_false_get in Hapi. congruence.
  - destruct (IH Hin) as [key ->]. simpl. eauto.
Qed.

(** C10. The configuration that [add_model] appends has no [api] field,
    and the initial gather of any handler whose configurations contain it
    raises [KeyError] before any request is issued: there is no result set
    and no error entry for that provider. *)
Theorem added_model_fails_initial_gather :
  forall (backend : nat -> request -> outcome) h name model_id display_name
         h' question sched log,
    In (added_model name model_id display_name) (models h') ->
    Dict.mem "api" (added_model name model_id display_name) = false
    /\ In (added_model name model_id display_name)
          (models (add_model h name model_id display_name))
    /\ exists key,
         get_initial_answers backend h' question sched log
         = (Raise (KeyError key), log).
Proof.
  intros backend h name model_id display_name h' question sched log Hin.
  assert (Hapi : Dict.mem "api" (added_model name model_id display_name) = false).
  { destruct display_name; reflexivity. }
  split; [exact Hapi|]. split.
  - simpl. apply in_or_app. right. now left.
  - unfold get_initial_answers, initial_tasks, bind, lift.
    destruct (initial_tasks_raise [Message "user" question] _ _ Hin Hapi) as [key ->].
    eauto.
Qed.

(** the default handler after one [add_model] *)
Lemma added_model_fails_initial_gather_witness :
  Dict.mem "api" (added_model "Claude" "claude-3" None) = false
  /\ In (added_model "Claude" "claude-3" None)
        (models (add_model default_handler "Claude" "claude-3" None))
  /\ exists key,
       get_initial_answers backend_down
         (add_model default_handler "Claude" "claude-3" None) "2+2?" [0; 1; 2] []
       = (Raise (KeyError key), []).
Proof.
  apply (added_model_fails_initial_gather backend_down default_handler
           "Claude" "claude-3" None
           (add_model default_handler "Claude" "claude-3" None)).
  simpl. right. right. left. reflexivity.
Defined.

(** ** Loops that may raise *)

Lemma res_fold_invariant {A B : Type} (P : B -> Prop) (f : B -> A -> res B)
  (xs : list A) (acc r : B) :
  P acc ->
  (forall acc x acc', In x xs -> P acc -> f acc x = Ok acc' -> P acc') ->
  res_fold f xs acc = Ok r -> P r.
Proof.
  revert acc. induction xs as [|x xs IH]; intros acc Hacc Hstep Hrun; simpl in Hrun.
  - now injection Hrun as <-.
  - destruct (f acc x) as [acc'|e] eqn:E; simpl in Hrun; [|discriminate].
    apply (IH acc'); auto.
    + apply (Hstep acc x); simpl; auto.
    + intros a y a' Hy. apply Hstep. simpl. auto.
Qed.

Lemma res_map_total {A B : Type} (f : A -> res B) (xs : list A) :
  (forall x, In x xs -> exists y, f x = Ok y) ->
  exists ys, res_map f xs = Ok ys /\ length ys = length xs
             /\ forall y, In y ys -> exists x, In x xs /\ f x = Ok y.
Proof.
  induction xs as [|x xs IH]; intros Hall; simpl.
  - exists []. repeat split; auto. intros y [].
  - destruct (Hall x) as [y Hy]; [simpl; auto|].
    destruct IH as (ys & Hys & Hlen & Hin); [intros; apply Hall; simpl; auto|].
    rewrite Hy, Hys. simpl. exists (y :: ys). repeat split; simpl; auto.
    intros y' [<-|Hy']; eauto.
    destruct (Hin y' Hy') as (x' & Hx' & Hfx'). eauto.
Qed.

Lemma in_enumerate {A : Type} (xs : list A) i x :
  In (i, x) (enumerate xs) -> nth_error xs i = Some x.
Proof.
  unfold enumerate. intros Hin.
  assert (G : forall k (l : list A) i x,
             In (i, x) (combine (seq k (length l)) l) ->
             k <= i /\ nth_error l (i - k) = Some x).
  { clear. intros k l. revert k. induction l as [|a l IH]; intros k i x Hin.
    - destruct Hin.
    - simpl in Hin. destruct Hin as [Heq|Hin].
      + injection Heq as <- <-. rewrite Nat.sub_diag. auto.
      + apply IH in Hin. destruct Hin as [Hle Hnth]. split; [lia|].
        replace (i - k) with (S (i - S k)) by lia. exact Hnth. }
  apply G in Hin. destruct Hin as [_ Hnth]. now rewrite Nat.sub_0_r in Hnth.
Qed.

(** ** The join of a batch *)

Section Gather.
Variable backend : nat -> request -> outcome.

Lemma settle_all_total (cs : list coroutine) log :
  exists rs log',
    settle_all backend cs log = (Ok rs, log') /\ length rs = length cs.
Proof.
  revert log. induction cs as [|c cs IH]; intros log; simpl.
  - exists [], log. auto.
  - unfold bind.
    assert (Hc : exists r l, settle backend c log = (Ok r, l)).
    { destruct c; simpl; unfold ret; eauto. }
    destruct Hc as (r & l & ->).
    destruct (IH l) as (rs & log' & -> & Hlen).
    exists (r :: rs), log'. simpl. auto.
Qed.

Lemma settle_all_dispatched (cs : list coroutine) log rs log' :
  (forall c, In c cs -> exists api model_id messages temp,
                          c = _make_api_call api model_id messages temp) ->
  settle_all backend cs log = (Ok rs, log') ->
  Forall dispatched rs.
Proof.
  revert log rs. induction cs as [|c cs IH]; intros log rs Hcs Hrun; simpl in Hrun.
  - injection Hrun as <- <-. constructor.
  - unfold bind in Hrun.
    destruct (Hcs c) as (api & mid & msgs & t & ->); [simpl; auto|].
    destruct (make_api_call_settles backend api mid msgs t log)
      as (r & l & Hr & Hd).
    rewrite Hr in Hrun.
    destruct (settle_all backend cs l) as [[rs'|e] l'] eqn:E; [|discriminate].
    injection Hrun as <- <-. constructor; auto.
    apply (IH l); auto. intros c' Hc'. apply Hcs. simpl. auto.
Qed.

Lemma filed_arrival {A : Type} (settled : list A) sched i r :
  In i sched -> nth_error settled i = Some r ->
  filed i (flat_map (fun j => match nth_error settled j with
                               | Some x => [(j, x)]
                               | None => []
                               end) sched) = Some r.
Proof.
  intros Hin Hr. induction sched as [|j sched IH]; [contradiction|].
  simpl. destruct (Nat.eq_dec j i) as [->|Hne].
  - rewrite Hr. simpl. now rewrite Nat.eqb_refl.
  - destruct Hin as [Heq|Hin]; [contradiction|].
    destruct (nth_error settled j); simpl; auto.
    apply Nat.eqb_neq in Hne. rewrite Hne. auto.
Qed.

Lemma read_by_position {A : Type} (l : list A) (f : nat -> option A) k :
  (forall i, i < length l -> f (k + i) = nth_error l i) ->
  flat_map (fun i => match f i with Some r => [r] | None => [] end)
           (seq k (length l)) = l.
Proof.
  revert k. induction l as [|a l IH]; intros k Hf; simpl; auto.
  specialize (Hf 0 (Nat.lt_0_succ _)) as H0. rewrite Nat.add_0_r in H0.
  rewrite H0. simpl. f_equal. apply IH.
  intros i Hi. replace (S k + i) with (k + S i) by lia.
  apply (Hf (S i)). simpl. lia.
Qed.

(** the list a join returns is the list of the results in the order of
    its awaitables, whatever the order of completion *)
Lemma gather_in_task_order (cs : list coroutine) sched log :
  Permutation sched (seq 0 (length cs)) ->
  gather backend sched cs log = settle_all backend cs log.
Proof.
  intros Hperm. unfold gather, bind.
  destruct (settle_all_total cs log) as (rs & log' & Hrun & Hlen).
  rewrite Hrun. unfold ret. f_equal. f_equal.
  rewrite <- Hlen. apply read_by_position.
  intros i Hi. simpl.
  destruct (nth_error rs i) as [r|] eqn:Er.
  - apply filed_arrival; auto.
    apply (Permutation_in i (Permutation_sym Hperm)).
    apply in_seq. lia.
  - apply nth_error_None in Er. lia.
Qed.

End Gather.

(** ** The initial gather *)

Lemma res_map_inv {A B : Type} (f : A -> res B) (xs : list A) ys :
  res_map f xs = Ok ys ->
  length ys = length xs /\ forall y, In y ys -> exists x, In x xs /\ f x = Ok y.
Proof.
  revert ys. induction xs as [|x xs IH]; intros ys Hrun; simpl in Hrun.
  - injection Hrun as <-. split; auto. intros y [].
  - destruct (f x) as [y|e] eqn:Ey; simpl in Hrun; [|discriminate].
    destruct (res_map f xs) as [ys'|e] eqn:E; simpl in Hrun; [|discriminate].
    injection Hrun as <-. destruct (IH ys' eq_refl) as [Hlen Hin].
    split; simpl; auto.
    intros y' [<-|Hy']; eauto.
    destruct (Hin y' Hy') as (x' & Hx' & Hfx'). eauto.
Qed.

Lemma initial_tasks_inv h question tasks :
  initial_tasks h question = Ok tasks ->
  length tasks = length (models h)
  /\ forall c, In c tasks -> exists api model_id messages temp,
                               c = _make_api_call api model_id messages temp.
Proof.
  unfold initial_tasks. intros Hrun. apply res_map_inv in Hrun.
  destruct Hrun as [Hlen Hin]. split; auto.
  intros c Hc. destruct (Hin c Hc) as (m & _ & Hm).
  destruct (subscript m "api") as [api|]; simpl in Hm; [|discriminate].
  destruct (subscript m "model_id") as [mid|]; simpl in Hm; [|discriminate].
  injection Hm as <-. eauto.
Qed.

Lemma configured_fields m :
  configured m = true ->
  Dict.get "name" m = Some (provider_name m)
  /\ (exists mid, Dict.get "model_id" m = Some mid)
  /\ exists api, Dict.get "api" m = Some api.
Proof.
  unfold configured, provider_name. rewrite !andb_true_iff.
  intros [[Hn Hm] Ha].
  apply mem_true_get in Hn, Hm, Ha.
  destruct Hn as [n Hn]. rewrite Hn. auto.
Qed.

Lemma initial_tasks_total h question :
  forallb configured (models h) = true ->
  exists tasks, initial_tasks h question = Ok tasks.
Proof.
  intros Hall. unfold initial_tasks.
  edestruct (res_map_total
               (fun m =>
                  api <-- subscript m "api" ;;
                  model_id <-- subscript m "model_id" ;;
                  Ok (_make_api_call api model_id [Message "user" question]
                        default_temp)) (models h)) as (ys & Hys & _).
  - intros m Hm. rewrite forallb_forall in Hall.
    destruct (configured_fields m (Hall m Hm)) as (_ & [mid Hmid] & [api Hapi]).
    unfold subscript. rewrite Hapi, Hmid. simpl. eauto.
  - eauto.
Qed.

(** where an entry of the initial result set comes from *)
Lemma collect_initial_entries h rs ans :
  collect_initial h rs = Ok ans ->
  forall n e, In (n, e) ans ->
    exists r m, In r rs /\ In m (models h) /\ Dict.get "name" m = Some n
                /\ e = Dict.update r (Dict.map_values VStr m).
Proof.
  unfold collect_initial.
  apply (res_fold_invariant
           (fun ans : answers => forall n e, In (n, e) ans ->
              exists r m, In r rs /\ In m (models h) /\ Dict.get "name" m = Some n
                          /\ e = Dict.update r (Dict.map_values VStr m))).
  - intros n e [].
  - intros acc [i r] acc' Hin Hacc Hstep n e Hget. simpl in Hstep.
    unfold index in Hstep.
    destruct (nth_error (models h) i) as [m|] eqn:Em; simpl in Hstep; [|discriminate].
    unfold subscript in Hstep.
    destruct (Dict.get "name" m) as [nm|] eqn:En; simpl in Hstep; [|discriminate].
    injection Hstep as <-.
    apply in_set in Hget. destruct Hget as [[-> ->]|Hget]; auto.
    exists r, m. repeat split; auto.
    + apply in_enumerate in Hin. eapply nth_error_In; eauto.
    + eapply nth_error_In; eauto.
Qed.

Lemma collect_initial_from h (ms pre : list model_info) rs (acc : answers) :
  models h = (pre ++ ms)%list ->
  length rs = length ms ->
  Dict.keys acc = map provider_name pre ->
  NoDup (map provider_name (pre ++ ms)) ->
  forallb configured ms = true ->
  exists ans,
    res_fold (fun (acc : answers) ir =>
                model_info <-- index (models h) (fst ir) ;;
                name <-- subscript model_info "name" ;;
                Ok (Dict.set name
                      (Dict.update (snd ir) (Dict.map_values VStr model_info)) acc))
             (combine (seq (length pre) (length rs)) rs) acc = Ok ans
    /\ Dict.keys ans = map provider_name (pre ++ ms).
Proof.
  revert pre rs acc. induction ms as [|m ms IH]; intros pre rs acc Hms Hlen Hkeys Hnd Hconf.
  - destruct rs; [|discriminate]. simpl. exists acc. split; auto.
    now rewrite app_nil_r.
  - destruct rs as [|r rs]; [discriminate|]. simpl in Hlen, Hconf.
    apply andb_true_iff in Hconf. destruct Hconf as [Hm Hconf].
    destruct (configured_fields m Hm) as (Hname & _ & _).
    match goal with |- context [res_fold ?f _ _] => set (F := f) end.
    assert (Hstep : F acc (length pre, r)
                    = Ok (Dict.set (provider_name m)
                            (Dict.update r (Dict.map_values VStr m)) acc)).
    { subst F. simpl. unfold index.
      rewrite Hms, nth_error_app2, Nat.sub_diag by lia. simpl.
      unfold subscript. now rewrite Hname. }
    simpl. rewrite Hstep. simpl.
    assert (Hsplit : (pre ++ m :: ms = (pre ++ [m]) ++ ms)%list)
      by now rewrite <- app_assoc.
    replace (S (length pre)) with (length (pre ++ [m])%list)
      by (rewrite length_app; simpl; lia).
    rewrite Hsplit in Hms, Hnd |- *.
    apply IH; auto; try lia.
    rewrite keys_set, map_app. simpl.
    destruct (Dict.mem (provider_name m) acc) eqn:E.
    + exfalso. apply mem_keys in E. rewrite Hkeys in E.
      rewrite !map_app in Hnd. simpl in Hnd.
      apply NoDup_app_remove_r in Hnd.
      apply NoDup_remove_2 in Hnd. rewrite app_nil_r in Hnd. contradiction.
    + now rewrite Hkeys.
Qed.

Lemma collect_initial_keys h rs :
  length rs = length (models h) ->
  NoDup (provider_names h) ->
  forallb configured (models h) = true ->
  exists ans, collect_initial h rs = Ok ans /\ Dict.keys ans = provider_names h.
Proof.
  intros Hlen Hnd Hconf.
  apply (collect_initial_from h (models h) [] rs Dict.empty); auto.
Qed.

(** C9. For a list of provider configurations as the data model has them
    (name, model identifier and capability present, names unique) and for
    any outcomes of the calls, the initial gather returns a result set with
    exactly one entry per configured provider, keyed by the provider names
    in registration order, and it returns the same result set for every
    order in which the calls complete. *)
Theorem initial_answers_in_registration_order :
  forall (backend : nat -> request -> outcome) h question sched log,
    forallb configured (models h) = true ->
    NoDup (provider_names h) ->
    Permutation sched (seq 0 (length (models h))) ->
    exists ans log',
      get_initial_answers backend h question sched log = (Ok ans, log')
      /\ Dict.keys ans = provider_names h
      /\ length ans = length (models h)
      /\ forall sched',
           Permutation sched' (seq 0 (length (models h))) ->
           get_initial_answers backend h question sched' log = (Ok ans, log').
Proof.
  intros backend h question sched log Hconf Hnd Hperm.
  destruct (initial_tasks_total h question Hconf) as [tasks Htasks].
  destruct (initial_tasks_inv h question tasks Htasks) as [Hlen _].
  destruct (settle_all_total backend tasks log) as (rs & log' & Hrun & Hrs).
  destruct (collect_initial_keys h rs) as (ans & Hans & Hkeys); auto; [congruence|].
  assert (Hany : forall sched', Permutation sched' (seq 0 (length (models h))) ->
            get_initial_answers backend h question sched' log = (Ok ans, log')).
  { intros sched' Hperm'. unfold get_initial_answers, bind, lift.
    rewrite Htasks, gather_in_task_order, Hrun by (now rewrite Hlen).
    now rewrite Hans. }
  exists ans, log'. repeat split; auto.
  unfold provider_names, Dict.keys in Hkeys.
  rewrite <- (length_map fst ans), Hkeys. apply length_map.
Qed.

(** the default handler, with the second call completing first *)
Lemma initial_answers_in_registration_order_witness :
  exists ans log',
    get_initial_answers backend_down default_handler "2+2?" [1; 0] [] = (Ok ans, log')
    /\ Dict.keys ans = provider_names default_handler
    /\ length ans = length (models default_handler)
    /\ forall sched',
         Permutation sched' (seq 0 (length (models default_handler))) ->
         get_initial_answers backend_down default_handler "2+2?" sched' []
         = (Ok ans, log').
Proof.
  apply (initial_answers_in_registration_order backend_down default_handler
           "2+2?" [1; 0] []).
  - reflexivity.
  - repeat constructor; simpl; intuition discriminate.
  - simpl. apply perm_swap.
Defined.

Lemma get_initial_answers_inv (backend : nat -> request -> outcome)
  h question sched log ans log1 :
  get_initial_answers backend h question sched log = (Ok ans, log1) ->
  exists tasks rs,
    initial_tasks h question = Ok tasks
    /\ gather backend sched tasks log = (Ok rs, log1)
    /\ collect_initial h rs = Ok ans.
Proof.
  unfold get_initial_answers, bind, lift. intros Hrun.
  destruct (initial_tasks h question) as [tasks|e] eqn:Et; [|discriminate].
  destruct (gather backend sched tasks log) as [[rs|e] l] eqn:Eg; [|discriminate].
  destruct (collect_initial h rs) as [a|e] eqn:Ec; [|discriminate].
  injection Hrun as <- <-. exists tasks, rs. auto.
Qed.

(** every entry of an initial result set has the field [name] *)
Lemma initial_entries_named (backend : nat -> request -> outcome)
  h question sched log ans log1 :
  get_initial_answers backend h question sched log = (Ok ans, log1) ->
  forall n e, In (n, e) ans -> Dict.mem "name" e = true.
Proof.
  intros Hrun n e Hin.
  destruct (get_initial_answers_inv _ _ _ _ _ _ _ Hrun) as (tasks & rs & _ & _ & Hc).
  destruct (collect_initial_entries h rs ans Hc n e Hin) as (r & m & _ & _ & Hn & ->).
  rewrite mem_update, mem_map_values.
  apply orb_true_iff. right. apply mem_true_get. eauto.
Qed.

(** ** The judging step *)

Lemma answer_list_total (ans : answers) :
  (forall n e, In (n, e) ans -> Dict.mem "name" e = true) ->
  exists l, answer_list ans = Ok l /\ length l = length (content_bearing ans).
Proof.
  intros Hnamed. unfold answer_list.
  edestruct (res_map_total
               (fun kv : string * entry =>
                  name <-- subscript (snd kv) "name" ;;
                  text <-- subscript (snd kv) "content" ;;
                  Ok ("Answer from " ++ py_str name ++ ":\n" ++ py_str text))
               (filter (fun kv => Dict.mem "content" (snd kv)) ans))
    as (l & Hl & Hlen & _).
  - intros [n e] Hin. apply filter_In in Hin. destruct Hin as [Hin Hc].
    simpl in Hc |- *.
    apply mem_true_get in Hc. destruct Hc as [c Hc].
    specialize (Hnamed n e Hin). apply mem_true_get in Hnamed.
    destruct Hnamed as [nm Hnm].
    unfold subscript. rewrite Hnm, Hc. simpl. eauto.
  - exists l. auto.
Qed.



(** ** The verdict *)

(** [lstrip] and [rstrip] cut white space off the ends *)
Lemma lstrip_split s : exists pre, s = pre ++ lstrip s /\ all_space pre = true.
Proof.
  induction s as [|c s (pre & Hs & Hpre)]; simpl.
  - exists EmptyString. auto.
  - destruct (is_space c) eqn:E.
    + exists (String c pre). simpl. rewrite E, Hpre. split; auto. now f_equal.
    + exists EmptyString. auto.
Qed.

Lemma rstrip_split s : exists post, s = rstrip s ++ post /\ all_space post = true.
Proof.
  induction s as [|c s (post & Hs & Hpost)]; simpl.
  - exists EmptyString. auto.
  - destruct (rstrip s) as [|c' r] eqn:E.
    + destruct (is_space c) eqn:Ec.
      * exists (String c post). simpl in *. rewrite Ec, Hpost. split; auto.
        now f_equal.
      * exists post. simpl in *. split; auto. now f_equal.
    + exists post. split; auto. simpl. now f_equal.
Qed.

Lemma lstrip_spaces pre s : all_space pre = true -> lstrip (pre ++ s) = lstrip s.
Proof.
  induction pre as [|c pre IH]; simpl; auto.
  intros H. apply andb_true_iff in H. destruct H as [Hc Hpre].
  rewrite Hc. auto.
Qed.

Lemma rstrip_spaces post : all_space post = true -> rstrip post = EmptyString.
Proof.
  induction post as [|c post IH]; simpl; auto.
  intros H. apply andb_true_iff in H. destruct H as [Hc Hpost].
  rewrite IH by exact Hpost. now rewrite Hc.
Qed.

(** the characters that [upper_char] sends to a letter, by enumeration *)
Lemma upper_char_cases (u l : ascii) :
  (forallb (fun n => implb (Ascii.eqb (upper_char (ascii_of_nat n)) u)
                       (Ascii.eqb (ascii_of_nat n) u || Ascii.eqb (ascii_of_nat n) l))
           (seq 0 256)) = true ->
  forall x, upper_char x = u -> Ascii.eqb x u || Ascii.eqb x l = true.
Proof.
  intros Hall x Hx. rewrite forallb_forall in Hall.
  specialize (Hall (nat_of_ascii x)).
  rewrite ascii_nat_embedding, Hx, Ascii.eqb_refl in Hall.
  apply Hall. apply in_seq. pose proof (nat_ascii_bounded x). lia.
Qed.

Lemma upper_is_Y c : upper_char c = "Y"%char -> letter "Y"%char "y"%char c.
Proof.
  intros H. pose proof (upper_char_cases "Y"%char "y"%char eq_refl c H) as Hc.
  apply orb_true_iff in Hc. destruct Hc as [Hc|Hc]; apply Ascii.eqb_eq in Hc;
    [left|right]; exact Hc.
Qed.

Lemma upper_is_E c : upper_char c = "E"%char -> letter "E"%char "e"%char c.
Proof.
  intros H. pose proof (upper_char_cases "E"%char "e"%char eq_refl c H) as Hc.
  apply orb_true_iff in Hc. destruct Hc as [Hc|Hc]; apply Ascii.eqb_eq in Hc;
    [left|right]; exact Hc.
Qed.

Lemma upper_is_S c : upper_char c = "S"%char -> letter "S"%char "s"%char c.
Proof.
  intros H. pose proof (upper_char_cases "S"%char "s"%char eq_refl c H) as Hc.
  apply orb_true_iff in Hc. destruct Hc as [Hc|Hc]; apply Ascii.eqb_eq in Hc;
    [left|right]; exact Hc.
Qed.

Lemma upper_yes core : py_upper core = "YES" <-> yes_any_case core.
Proof.
  split.
  - intros H.
    destruct core as [|y [|e [|s [|x rest]]]]; simpl in H; try discriminate.
    injection H as Hy He Hs.
    exists y, e, s. repeat split;
      auto using upper_is_Y, upper_is_E, upper_is_S.
  - intros (y & e & s & -> & Hy & He & Hs).
    destruct Hy as [->| ->], He as [->| ->], Hs as [->| ->]; reflexivity.
Qed.

(** the test of [are_answers_similar] on a reply, against the wording of
    the specification *)
Lemma strip_upper_yes reply :
  py_upper (py_strip reply) = "YES" <-> trimmed_yes reply.
Proof.
  split.
  - intros H. apply upper_yes in H.
    destruct (lstrip_split reply) as (pre & Hpre & Hsp).
    destruct (rstrip_split (lstrip reply)) as (post & Hpost & Hsp').
    exists pre, (py_strip reply), post. repeat split; auto.
    unfold py_strip. rewrite <- Hpost. exact Hpre.
  - intros (pre & core & post & -> & Hpre & Hpost & Hcore).
    apply upper_yes. unfold py_strip. rewrite lstrip_spaces by exact Hpre.
    destruct Hcore as (y & e & s & -> & Hy & He & Hs).
    assert (Hkeep : rstrip (lstrip (String y (String e (String s EmptyString)) ++ post))
                    = String y (String e (String s EmptyString))).
    { simpl.
      destruct Hy as [->| ->], He as [->| ->], Hs as [->| ->];
        simpl; rewrite (rstrip_spaces post Hpost); reflexivity. }
    rewrite Hkeep. exists y, e, s. auto.
Qed.

Lemma ascii_text_lstrip s : ascii_text s = true -> ascii_text (lstrip s) = true.
Proof.
  induction s as [|c s IH]; simpl; auto.
  intros H. destruct (is_space c); auto.
  apply andb_true_iff in H. tauto.
Qed.

Lemma ascii_text_rstrip s : ascii_text s = true -> ascii_text (rstrip s) = true.
Proof.
  induction s as [|c s IH]; simpl; auto.
  intros H. apply andb_true_iff in H. destruct H as [Hc Hs].
  specialize (IH Hs). destruct (rstrip s) as [|c' r].
  - destruct (is_space c); simpl; auto. now rewrite Hc.
  - simpl in *. now rewrite Hc, IH.
Qed.

(** on 7-bit text every [PyStr] applies the test of the specification *)
Lemma text_verdict (py : PyStr) reply :
  ascii_text reply = true ->
  String.eqb (str_upper py (str_strip py reply)) "YES" = true <-> trimmed_yes reply.
Proof.
  intros Hascii.
  rewrite (strip_7bit py reply Hascii).
  rewrite (upper_7bit py (py_strip reply))
    by (unfold py_strip; now apply ascii_text_rstrip, ascii_text_lstrip).
  rewrite String.eqb_eq. apply strip_upper_yes.
Qed.

Lemma empty_verdict (py : PyStr) :
  String.eqb (str_upper py (str_strip py EmptyString)) "YES" = false.
Proof.
  rewrite (strip_7bit py EmptyString eq_refl).
  now rewrite (upper_7bit py (py_strip EmptyString) eq_refl).
Qed.

(** the verdict on the result of an adapter, from the outcome of its call *)
Lemma verdict_of_call_result (py : PyStr) tag o :
  verdict py (call_result tag o)
  = match o with
    | Returned (VStr reply) =>
        Ok (String.eqb (str_upper py (str_strip py reply)) "YES")
    | Returned _ => Raise (AttributeError "strip")
    | Failed _ => Ok false
    end.
Proof.
  destruct o as [[reply|b|]|e]; unfold verdict; simpl; try reflexivity.
  now rewrite empty_verdict.
Qed.

Lemma verdict_of_unknown_api (py : PyStr) api :
  verdict py [("success", VBool false); ("error", VStr ("Unknown API: " ++ api))]
  = Ok false.
Proof. unfold verdict. simpl. now rewrite empty_verdict. Qed.

(** the only exception of the verdict *)
Lemma verdict_raise (py : PyStr) result e :
  verdict py result = Raise e -> e = AttributeError "strip".
Proof.
  unfold verdict.
  destruct (Dict.get "content" result) as [[reply|b|]|]; intros H;
    try discriminate; now injection H as <-.
Qed.

(** the judging step with an [openai] judge and two answers to compare *)
Lemma judge_openai_outcome (backend : nat -> request -> outcome) (py : PyStr)
  h question ans log first second rest :
  answer_list ans = Ok (first :: second :: rest) ->
  judge_api h = "openai" ->
  are_answers_similar backend py h question ans log
  = (match backend (length log)
             (OpenAIChat (judge_model_id h)
                [Message "user" (comparison_prompt question first second)] 0) with
     | Returned (VStr reply) =>
         Ok (String.eqb (str_upper py (str_strip py reply)) "YES")
     | Returned _ => Raise (AttributeError "strip")
     | Failed _ => Ok false
     end,
     (log ++ [OpenAIChat (judge_model_id h)
                [Message "user" (comparison_prompt question first second)] 0])%list).
Proof.
  intros Hlist Hjudge.
  unfold are_answers_similar, bind, lift, await. rewrite Hlist, Hjudge.
  unfold _make_api_call. cbn [String.eqb Ascii.eqb Bool.eqb].
  rewrite settle_openai. now rewrite verdict_of_call_result.
Qed.

(** C1. A judge call that succeeds with a content that is not text
    ([None]) makes the judging step raise [AttributeError] instead of
    reporting disagreement, and the run ends with that exception after its
    third request, without a revision round. *)
Theorem judge_content_none_raises :
  forall py : PyStr,
    are_answers_similar backend_judge_no_text py default_handler "2+2?"
      initial_two_answers
      [OpenAIChat "gpt-4o-mini" [Message "user" "2+2?"] default_temp;
       GeminiGenerate "gemini-1.5-flash-latest" "2+2?" default_temp]
    = (Raise (AttributeError "strip"),
       [OpenAIChat "gpt-4o-mini" [Message "user" "2+2?"] default_temp;
        GeminiGenerate "gemini-1.5-flash-latest" "2+2?" default_temp;
        OpenAIChat "gpt-4o-mini"
          [Message "user"
             (comparison_prompt "2+2?" "Answer from GPT-4o-mini:\nfour"
                "Answer from Gemini-1.5-Flash:\n4")] 0])
    /\ process_validation backend_judge_no_text py "2+2?" default_handler
         [0; 1] [0; 1] []
       = (Raise (AttributeError "strip"),
          [OpenAIChat "gpt-4o-mini" [Message "user" "2+2?"] default_temp;
           GeminiGenerate "gemini-1.5-flash-latest" "2+2?" default_temp;
           OpenAIChat "gpt-4o-mini"
             [Message "user"
                (comparison_prompt "2+2?" "Answer from GPT-4o-mini:\nfour"
                   "Answer from Gemini-1.5-Flash:\n4")] 0]).
Proof. intros py. split; reflexivity. Qed.

(** [default_handler] is the handler of an environment with both keys *)
Lemma init_default : __init__ env_both_keys = Ok default_handler.
Proof. reflexivity. Qed.

(** [initial_openai_down] is an initial result set of that handler *)
Lemma initial_openai_down_gathered :
  get_initial_answers backend_openai_down default_handler "2+2?" [0; 1] []
  = (Ok initial_openai_down,
     [OpenAIChat "gpt-4o-mini" [Message "user" "2+2?"] default_temp;
      GeminiGenerate "gemini-1.5-flash-latest" "2+2?" default_temp]).
Proof. reflexivity. Qed.

(** C6. On two answers the judge is asked once, at temperature 0, with the
    prompt built from the first two entries; in that prompt the line that
    introduces an answer is followed by a backslash and the letter n, not
    by a line break, so the prompt is not the template of the
    specification. *)
Theorem judge_prompt_has_backslash_n :
  forall py : PyStr,
  exists prompt agree,
    are_answers_similar backend_down py default_handler "2+2?" initial_two_answers []
    = (Ok agree, [OpenAIChat "gpt-4o-mini" [Message "user" prompt] 0])
    /\ prompt = comparison_prompt "2+2?" "Answer from GPT-4o-mini:\nfour"
                  "Answer from Gemini-1.5-Flash:\n4"
    /\ prompt <> template_prompt "2+2?" "GPT-4o-mini" "four" "Gemini-1.5-Flash" "4".
Proof.
  intros py.
  exists (comparison_prompt "2+2?" "Answer from GPT-4o-mini:\nfour"
            "Answer from Gemini-1.5-Flash:\n4"), false.
  split; [|split; [reflexivity|]].
  - apply (judge_openai_outcome backend_down py default_handler "2+2?"
             initial_two_answers [] _ _ []); reflexivity.
  - intros H. apply (f_equal String.length) in H. vm_compute in H. discriminate.
Qed.

(** ** The revision round *)

Section RevisionTask.
Variables (h : LLMHandler) (question : string) (orig : answers).
Variables (m : model_info) (n : string).
Hypothesis Hname : Dict.get "name" m = Some n.

(** a provider without a counterpart is skipped *)
Lemma revision_task_no_counterpart :
  next_other (models h) n = Ok None ->
  revision_task h question orig m = Ok None.
Proof.
  intros Hother. unfold revision_task, subscript.
  rewrite Hname. cbn [res_bind]. now rewrite Hother.
Qed.

Variables (other_model : model_info) (other_name : string).
Hypothesis Hother : next_other (models h) n = Ok (Some other_model).
Hypothesis Hother_name : Dict.get "name" other_model = Some other_name.

(** a provider is skipped when the result set has no entry for it or for
    its counterpart *)
Lemma revision_task_missing_entry :
  Dict.mem n orig = false \/ Dict.mem other_name orig = false ->
  revision_task h question orig m = Ok None.
Proof.
  intros Hmissing. unfold revision_task, subscript.
  rewrite Hname. cbn [res_bind]. rewrite Hother. cbn [res_bind].
  destruct other_model as [|kv rest]; [reflexivity|].
  destruct (Dict.mem n orig) eqn:En; cbn [negb]; [|reflexivity].
  rewrite Hother_name. cbn [res_bind].
  destruct Hmissing as [H|H]; [discriminate|]. now rewrite H.
Qed.

Variables (own other : entry).
Hypothesis Hown : Dict.get n orig = Some own.
Hypothesis Hoth : Dict.get other_name orig = Some other.

(** a provider with content on both sides gets one call, with the
    feedback prompt of the two contents *)
Lemma revision_task_calls own_content other_content api model_id :
  Dict.get "content" own = Some own_content ->
  Dict.get "content" other = Some other_content ->
  Dict.get "api" m = Some api ->
  Dict.get "model_id" m = Some model_id ->
  revision_task h question orig m
  = Ok (Some (n, _make_api_call api model_id
                   [Message "user"
                      (feedback_prompt question (py_str own_content)
                         (py_str other_content))] default_temp)).
Proof.
  intros Hc1 Hc2 Hapi Hmid. unfold revision_task, subscript.
  rewrite Hname. cbn [res_bind]. rewrite Hother. cbn [res_bind].
  destruct other_model as [|kv rest]; [discriminate|].
  assert (Hm1 : Dict.mem n orig = true) by (apply mem_true_get; eauto).
  assert (Hm2 : Dict.mem other_name orig = true) by (apply mem_true_get; eauto).
  rewrite Hm1. cbn [negb]. rewrite Hother_name. cbn [res_bind].
  rewrite Hm2. cbn [negb]. rewrite Hown. cbn [res_bind].
  rewrite Hc1. cbn [res_bind]. rewrite Hoth. cbn [res_bind].
  rewrite Hc2. cbn [res_bind]. rewrite Hapi. cbn [res_bind].
  rewrite Hmid. reflexivity.
Qed.

(** a provider whose own entry or whose counterpart's entry has no
    content is not skipped: the turn of the loop raises *)
Lemma revision_task_raises :
  Dict.mem "content" own = false \/ Dict.mem "content" other = false ->
  revision_task h question orig m = Raise (KeyError "content").
Proof.
  intros Hlacks. unfold revision_task, subscript.
  rewrite Hname. cbn [res_bind]. rewrite Hother. cbn [res_bind].
  destruct other_model as [|kv rest]; [discriminate|].
  assert (Hm1 : Dict.mem n orig = true) by (apply mem_true_get; eauto).
  assert (Hm2 : Dict.mem other_name orig = true) by (apply mem_true_get; eauto).
  rewrite Hm1. cbn [negb]. rewrite Hother_name. cbn [res_bind].
  rewrite Hm2. cbn [negb]. rewrite Hown. cbn [res_bind].
  destruct (Dict.get "content" own) as [c1|] eqn:E1; cbn [res_bind];
    [|reflexivity].
  rewrite Hoth. cbn [res_bind].
  destruct Hlacks as [H|H]; apply mem_false_get in H; [congruence|].
  now rewrite H.
Qed.

End RevisionTask.

(** C3. The revision step on an initial result set in which one provider
    has an error entry: the provider is not skipped; reading its content
    for the prompt raises [KeyError], no request is issued and no result
    set is returned. *)
Theorem revision_raises_on_entry_without_content :
  get_revised_answers backend_openai_down default_handler "2+2?"
    initial_openai_down [0; 1] []
  = (Raise (KeyError "content"), []).
Proof. reflexivity. Qed.

Lemma filed_in {A : Type} i (r : A) arrivals :
  filed i arrivals = Some r -> In (i, r) arrivals.
Proof.
  induction arrivals as [|[j a] arrivals IH]; simpl; [discriminate|].
  destruct (Nat.eqb j i) eqn:E; auto.
  apply Nat.eqb_eq in E. subst j. intros H. injection H as <-. auto.
Qed.

(** a join returns nothing but results of its own coroutines *)
Lemma gather_results_settled (backend : nat -> request -> outcome)
  sched cs log rs log' :
  gather backend sched cs log = (Ok rs, log') ->
  exists settled,
    settle_all backend cs log = (Ok settled, log')
    /\ forall r, In r rs -> In r settled.
Proof.
  unfold gather, bind, ret. intros Hrun.
  destruct (settle_all_total backend cs log) as (settled & l & Hs & _).
  rewrite Hs in Hrun. injection Hrun as <- <-.
  exists settled. split; auto.
  intros r Hr. apply in_flat_map in Hr. destruct Hr as (i & _ & Hr).
  match type of Hr with
  | In _ (match ?f with _ => _ end) => destruct f as [r'|] eqn:Ef
  end; [|destruct Hr].
  destruct Hr as [<-|[]].
  apply filed_in in Ef. apply in_flat_map in Ef. destruct Ef as (j & _ & Hj).
  destruct (nth_error settled j) as [x|] eqn:Ex; [|destruct Hj].
  destruct Hj as [Hj|[]]. injection Hj as <- <-.
  eapply nth_error_In; eauto.
Qed.

Lemma gather_dispatched (backend : nat -> request -> outcome)
  sched cs log rs log' :
  (forall c, In c cs -> exists api model_id messages temp,
                          c = _make_api_call api model_id messages temp) ->
  gather backend sched cs log = (Ok rs, log') ->
  forall r, In r rs -> dispatched r.
Proof.
  intros Hcs Hrun r Hr.
  destruct (gather_results_settled _ _ _ _ _ _ Hrun) as (settled & Hs & Hin).
  pose proof (settle_all_dispatched backend cs log settled log' Hcs Hs) as Hall.
  rewrite Forall_forall in Hall. auto.
Qed.

Lemma dispatched_shape r :
  dispatched r ->
  content_xor_error r = true
  /\ NoDup (Dict.keys r)
  /\ ((Dict.get "success" r = Some (VBool true) /\ Dict.mem "content" r = true)
      \/ (Dict.get "success" r = Some (VBool false) /\ Dict.mem "error" r = true)).
Proof.
  intros [(tag & [text|e] & ->)|(api & ->)]; simpl; repeat split; auto;
    repeat constructor; simpl; intuition discriminate.
Qed.


(** what the first loop of the revision step has checked for a provider
    that it hands to the batch *)
Lemma revision_task_inv h question (orig : answers) m n c :
  revision_task h question orig m = Ok (Some (n, c)) ->
  Dict.get "name" m = Some n
  /\ (exists own, Dict.get n orig = Some own /\ Dict.mem "content" own = true)
  /\ exists api model_id messages temp,
       c = _make_api_call api model_id messages temp.
Proof.
  unfold revision_task, subscript. intros H.
  destruct (Dict.get "name" m) as [name|] eqn:En; cbn [res_bind] in H;
    [|discriminate].
  destruct (next_other (models h) name) as [[other|]|] eqn:Eo; cbn [res_bind] in H;
    try discriminate.
  destruct other as [|kv other]; [discriminate|].
  destruct (Dict.mem name orig) eqn:Em; cbn [negb] in H; [|discriminate].
  destruct (Dict.get "name" (kv :: other)) as [oname|] eqn:Eon;
    cbn [res_bind] in H; [|discriminate].
  destruct (Dict.mem oname orig) eqn:Emo; cbn [negb] in H; [|discriminate].
  destruct (Dict.get name orig) as [own|] eqn:Eown; cbn [res_bind] in H;
    [|discriminate].
  destruct (Dict.get "content" own) as [oc|] eqn:Eoc; cbn [res_bind] in H;
    [|discriminate].
  destruct (Dict.get oname orig) as [oth|] eqn:Eoth; cbn [res_bind] in H;
    [|discriminate].
  destruct (Dict.get "content" oth) as [otc|] eqn:Eotc; cbn [res_bind] in H;
    [|discriminate].
  destruct (Dict.get "api" m) as [api|] eqn:Eapi; cbn [res_bind] in H;
    [|discriminate].
  destruct (Dict.get "model_id" m) as [mid|] eqn:Emid; cbn [res_bind] in H;
    [|discriminate].
  injection H as <- <-. repeat split; auto.
  - exists own. split; auto. apply mem_true_get. eauto.
  - eauto.
Qed.

Lemma revision_tasks_inv h question (orig : answers) tasks :
  revision_tasks h question orig = Ok tasks ->
  forall n c, In (n, c) tasks ->
    (exists m, In m (models h) /\ revision_task h question orig m = Ok (Some (n, c)))
    /\ (exists own, Dict.get n orig = Some own /\ Dict.mem "content" own = true)
    /\ exists api model_id messages temp,
         c = _make_api_call api model_id messages temp.
Proof.
  unfold revision_tasks.
  apply (res_fold_invariant
           (fun tasks : list (string * coroutine) =>
              forall n c, In (n, c) tasks ->
                (exists m, In m (models h)
                           /\ revision_task h question orig m = Ok (Some (n, c)))
                /\ (exists own, Dict.get n orig = Some own
                                /\ Dict.mem "content" own = true)
                /\ exists api model_id messages temp,
                     c = _make_api_call api model_id messages temp)).
  - intros n c [].
  - intros acc m acc' Hm Hacc Hstep n c Hin.
    destruct (revision_task h question orig m) as [[[n' c']|]|] eqn:E;
      simpl in Hstep; try discriminate; injection Hstep as <-; auto.
    apply in_app_or in Hin. destruct Hin as [Hin|[Heq|[]]]; auto.
    injection Heq as <- <-.
    destruct (revision_task_inv _ _ _ _ _ _ E) as (_ & Hown & Hc).
    repeat split; eauto.
Qed.

Lemma get_revised_answers_inv (backend : nat -> request -> outcome)
  h question orig sched log rev log' :
  get_revised_answers backend h question orig sched log = (Ok rev, log') ->
  exists tasks rs,
    revision_tasks h question orig = Ok tasks
    /\ gather backend sched (map snd tasks) log = (Ok rs, log')
    /\ collect_revised orig tasks rs = Ok rev.
Proof.
  unfold get_revised_answers, bind, lift. intros Hrun.
  destruct (revision_tasks h question orig) as [tasks|e] eqn:Et; [|discriminate].
  destruct (gather backend sched (map snd tasks) log) as [[rs|e] l] eqn:Eg;
    [|discriminate].
  destruct (collect_revised orig tasks rs) as [a|e] eqn:Ec; [|discriminate].
  injection Hrun as <- <-. exists tasks, rs. auto.
Qed.

(** where an entry of the revised result set comes from *)
Lemma collect_revised_entries (orig : answers) tasks rs rev :
  collect_revised orig tasks rs = Ok rev ->
  forall n e, In (n, e) rev ->
    exists c result,
      In (n, c) tasks /\ In result rs
      /\ revised_entry (subscript orig n) result = Ok e.
Proof.
  unfold collect_revised.
  apply (res_fold_invariant
           (fun rev : answers => forall n e, In (n, e) rev ->
              exists c result,
                In (n, c) tasks /\ In result rs
                /\ revised_entry (subscript orig n) result = Ok e)).
  - intros n e [].
  - intros acc [i [name c]] acc' Hin Hacc Hstep n e Hne. simpl in Hstep.
    unfold index in Hstep.
    destruct (nth_error rs i) as [result|] eqn:Er; simpl in Hstep; [|discriminate].
    destruct (revised_entry (subscript orig name) result) as [e'|] eqn:Ee;
      simpl in Hstep; [|discriminate].
    injection Hstep as <-.
    apply in_set in Hne. destruct Hne as [[-> ->]|Hne]; auto.
    exists c, result. repeat split; auto.
    + apply in_enumerate in Hin. eapply nth_error_In; eauto.
    + eapply nth_error_In; eauto.
Qed.

(** the entry stored for a provider after its revision call *)
Lemma revised_entry_shape (own result e : entry) :
  dispatched result ->
  Dict.mem "content" own = true ->
  revised_entry (Ok own) result = Ok e ->
  Dict.mem "content" e = true
  /\ (Dict.get "success" result = Some (VBool true) ->
        Dict.mem "original_content" e = true
        /\ Dict.mem "error" e = Dict.mem "error" own)
  /\ (Dict.get "success" result = Some (VBool false) ->
        Dict.mem "error" e = true)
  /\ (NoDup (Dict.keys own) -> NoDup (Dict.keys e)).
Proof.
  intros Hd Hown Hrun.
  destruct (dispatched_shape result Hd) as (_ & _ & Hs).
  unfold revised_entry, subscript in Hrun.
  destruct Hs as [[Hs Hc]|[Hs He]]; rewrite Hs in Hrun; simpl in Hrun.
  - apply mem_true_get in Hc. destruct Hc as [c Hc]. rewrite Hc in Hrun.
    simpl in Hrun. injection Hrun as <-.
    split; [now rewrite !mem_set|]. split; [|split].
    + intros _. now rewrite !mem_set.
    + intros H. rewrite Hs in H. discriminate.
    + intros H. now apply nodup_set, nodup_set.
  - apply mem_true_get in He. destruct He as [err He]. rewrite He in Hrun.
    simpl in Hrun. injection Hrun as <-.
    split; [now rewrite mem_set|]. split; [|split].
    + intros H. rewrite Hs in H. discriminate.
    + intros _. now rewrite mem_set.
    + intros H. now apply nodup_set.
Qed.

(** ** Content and error of the entries *)




(** ** Labels *)

Lemma pyval_eqb_eq v w : pyval_eqb v w = true <-> v = w.
Proof.
  destruct v as [a|a|], w as [b|b|]; simpl; split; intros H;
    try discriminate; try reflexivity.
  - apply String.eqb_eq in H. now subst.
  - injection H as ->. apply String.eqb_refl.
  - apply Bool.eqb_prop in H. now subst.
  - injection H as ->. apply Bool.eqb_reflx.
Qed.

Lemma original_entry_label data :
  Dict.get "label" (original_entry data) = Some (VStr "Original").
Proof.
  unfold original_entry.
  rewrite !get_set_other by discriminate. apply get_set_same.
Qed.

Lemma initial_results_entries (ans : answers) n e :
  In (n, e) (initial_results ans) -> exists data, e = original_entry data.
Proof.
  unfold initial_results.
  assert (G : forall (l acc : answers),
             (forall n e, In (n, e) acc -> exists data, e = original_entry data) ->
             forall n e,
               In (n, e) (fold_left (fun (results : answers) kv =>
                                       Dict.set (fst kv) (original_entry (snd kv))
                                         results) l acc) ->
               exists data, e = original_entry data).
  { induction l as [|[k d] l IH]; intros acc Hacc n' e' Hin; simpl in Hin.
    - eauto.
    - apply (IH _) in Hin; auto.
      intros n0 e0 H0. apply in_set in H0. destruct H0 as [[_ ->]|H0]; eauto. }
  apply G. intros n' e' [].
Qed.

Lemma initial_entries_nodup (backend : nat -> request -> outcome)
  h question sched log ans log1 :
  get_initial_answers backend h question sched log = (Ok ans, log1) ->
  forall n e, In (n, e) ans -> NoDup (Dict.keys e).
Proof.
  intros Hrun n e Hin.
  destruct (get_initial_answers_inv _ _ _ _ _ _ _ Hrun)
    as (tasks & rs & Ht & Hg & Hc).
  destruct (collect_initial_entries h rs ans Hc n e Hin)
    as (r & m & Hr & _ & _ & ->).
  destruct (initial_tasks_inv h question tasks Ht) as [_ Hapi].
  pose proof (gather_dispatched _ _ _ _ _ _ Hapi Hg r Hr) as Hd.
  destruct (dispatched_shape r Hd) as (_ & Hnd & _).
  now apply nodup_update.
Qed.

(** an entry of the revised result set of a run has an error or both
    contents, and its keys are distinct *)
Lemma revised_entries_shape (backend : nat -> request -> outcome)
  h question sched log ans log1 sched' log2 rev log3 :
  get_initial_answers backend h question sched log = (Ok ans, log1) ->
  get_revised_answers backend h question ans sched' log2 = (Ok rev, log3) ->
  forall n e, In (n, e) rev ->
    NoDup (Dict.keys e)
    /\ (Dict.mem "error" e = true
        \/ (Dict.mem "original_content" e = true /\ Dict.mem "content" e = true)).
Proof.
  intros Hinit Hrev n e Hin.
  destruct (get_revised_answers_inv _ _ _ _ _ _ _ _ Hrev)
    as (tasks & rs & Ht & Hg & Hc).
  destruct (collect_revised_entries _ _ _ _ Hc n e Hin)
    as (c & result & Hnc & Hr & He).
  destruct (revision_tasks_inv _ _ _ _ Ht n c Hnc)
    as (_ & (own & Hown & Hcontent) & _).
  assert (Hd : dispatched result).
  { apply (gather_dispatched _ _ _ _ _ _) with (r := result) in Hg; auto.
    intros c' Hc'. apply in_map_iff in Hc'. destruct Hc' as ([n' c''] & <- & Hin').
    now destruct (revision_tasks_inv _ _ _ _ Ht n' c'' Hin') as (_ & _ & Hapi). }
  unfold subscript in He. rewrite Hown in He.
  destruct (revised_entry_shape own result e Hd Hcontent He)
    as (Hec & Hsucc & Hfail & Hnd).
  split.
  - apply Hnd. apply (initial_entries_nodup _ _ _ _ _ _ _ Hinit n own).
    now apply get_in.
  - destruct (dispatched_shape result Hd) as (_ & _ & [[Hs _]|[Hs _]]).
    + right. destruct (Hsucc Hs) as [Hoc _]. auto.
    + left. auto.
Qed.

Lemma merge_revised_entry current data :
  NoDup (Dict.keys data) ->
  Dict.mem "error" data = true
  \/ (Dict.mem "original_content" data = true /\ Dict.mem "content" data = true) ->
  protocol_entry (merge_revised current data).
Proof.
  intros Hnd Hshape. right. unfold merge_revised.
  set (stored := Dict.set "label_class" (VStr "revised-label")
                   (Dict.set "label" (VStr "Revised") data)).
  assert (Hkeys : forall k, Dict.mem k data = true -> Dict.mem k stored = true).
  { intros k Hk. subst stored. rewrite !mem_set, Hk. now rewrite !orb_true_r. }
  split.
  - apply get_update_present.
    + subst stored. now apply nodup_set, nodup_set.
    + subst stored. rewrite get_set_other by discriminate. apply get_set_same.
  - rewrite !mem_update.
    destruct Hshape as [He|[Ho Hc]].
    + left. rewrite (Hkeys _ He). apply orb_true_r.
    + right. rewrite (Hkeys _ Ho), (Hkeys _ Hc). split; apply orb_true_r.
Qed.

(** the stored fields of every entry that [process_validation] returns *)
Lemma process_validation_entries (backend : nat -> request -> outcome) (py : PyStr)
  question h sched1 sched2 log s log' :
  process_validation backend py question h sched1 sched2 log = (Ok s, log') ->
  forall n e, In (n, e) (results s) -> protocol_entry e.
Proof.
  unfold process_validation, bind, ret, lift. intros Hrun.
  destruct (get_initial_answers backend h question sched1 log)
    as [[ans|x] log1] eqn:Einit; [|discriminate].
  destruct (are_answers_similar backend py h question ans log1)
    as [[similar|x] log2] eqn:Esim; [|discriminate].
  assert (Hinitial : forall n e, In (n, e) (initial_results ans) -> protocol_entry e).
  { intros n e Hin. apply initial_results_entries in Hin. destruct Hin as [data ->].
    left. apply original_entry_label. }
  destruct similar.
  - injection Hrun as <- <-. exact Hinitial.
  - destruct (get_revised_answers backend h question ans sched2 log2)
      as [[rev|x] log3] eqn:Erev; [|discriminate].
    destruct (merge_results (initial_results ans) rev) as [merged|x] eqn:Em;
      [|discriminate].
    injection Hrun as <- <-. simpl.
    revert Em. unfold merge_results.
    apply (res_fold_invariant
             (fun results : answers =>
                forall n e, In (n, e) results -> protocol_entry e)); auto.
    intros acc [k data] acc' Hk Hacc Hstep n e Hin. simpl in Hstep.
    destruct (subscript acc k) as [current|x]; simpl in Hstep; [|discriminate].
    injection Hstep as <-.
    apply in_set in Hin. destruct Hin as [[_ ->]|Hin]; eauto.
    destruct (revised_entries_shape _ _ _ _ _ _ _ _ _ _ _ Einit Erev k data Hk)
      as [Hnd Hshape].
    now apply merge_revised_entry.
Qed.

(** the label shown for an entry without an error that has content *)
Lemma shown_label_of (e : entry) c :
  Dict.mem "error" e = false ->
  Dict.get "content" e = Some c ->
  shown_label e
  = Some (if pyval_eqb (get_default "label" (VStr "Answer") e) (VStr "Revised")
             && pyval_eqb c (get_default "original_content" c e)
          then VStr "Defended"
          else get_default "label" (VStr "Answer") e).
Proof.
  intros He Hc. unfold shown_label, show, subscript, get_or_none.
  rewrite He, Hc. reflexivity.
Qed.

Lemma shown_label_some (e : entry) l :
  shown_label e = Some l ->
  Dict.mem "error" e = false /\ exists c, Dict.get "content" e = Some c.
Proof.
  unfold shown_label, show, subscript. intros H.
  destruct (Dict.mem "error" e).
  - destruct (Dict.get "error" e); discriminate.
  - split; auto. destruct (Dict.get "content" e) as [c|]; [eauto|discriminate].
Qed.

(** C5. In the results of a run, the entry of a provider is shown with the
    label [Defended] exactly when it holds the label [Revised] with the
    original content recorded and no error (its revision succeeded) and its
    content equals its original content; such an entry whose content
    differs is shown with [Revised]; and the label the run stores is never
    [Defended], which only the display derives. *)
Theorem defended_iff_revision_kept_content :
  forall (backend : nat -> request -> outcome) (py : PyStr) question h sched1 sched2 log s log',
    process_validation backend py question h sched1 sched2 log = (Ok s, log') ->
    forall n e, In (n, e) (results s) ->
      (shown_label e = Some (VStr "Defended")
       <-> successfully_revised e
           /\ Dict.get "content" e = Dict.get "original_content" e)
      /\ (successfully_revised e ->
          Dict.get "content" e <> Dict.get "original_content" e ->
          shown_label e = Some (VStr "Revised"))
      /\ Dict.get "label" e <> Some (VStr "Defended").
Proof.
  intros backend py question h sched1 sched2 log s log' Hrun n e Hin.
  pose proof (process_validation_entries _ _ _ _ _ _ _ _ _ Hrun n e Hin) as Hentry.
  assert (Hstored : Dict.get "label" e <> Some (VStr "Defended")).
  { destruct Hentry as [H|[H _]]; rewrite H; discriminate. }
  split; [split|split; [|exact Hstored]].
  - intros Hshown.
    destruct (shown_label_some e _ Hshown) as [Herr [c Hc]].
    rewrite (shown_label_of e c Herr Hc) in Hshown.
    unfold get_default in Hshown.
    destruct Hentry as [Hl|[Hl Hshape]]; rewrite Hl in Hshown; simpl in Hshown;
      [discriminate|].
    destruct Hshape as [He|[Ho _]]; [congruence|].
    apply mem_true_get in Ho. destruct Ho as [o Ho]. rewrite Ho in Hshown.
    destruct (pyval_eqb c o) eqn:Eq; [|discriminate].
    apply pyval_eqb_eq in Eq. subst o.
    repeat split; auto.
    + apply mem_true_get. eauto.
    + congruence.
  - intros [(Hl & Ho & Herr) Hsame].
    apply mem_true_get in Ho. destruct Ho as [o Ho].
    rewrite Ho in Hsame.
    rewrite (shown_label_of e o Herr Hsame). unfold get_default.
    rewrite Hl, Ho. simpl.
    assert (Hoo : pyval_eqb o o = true) by now apply pyval_eqb_eq.
    now rewrite Hoo.
  - intros (Hl & Ho & Herr) Hdiff.
    destruct Hentry as [Hl'|[_ Hshape]]; [congruence|].
    destruct Hshape as [He|[_ Hc]]; [congruence|].
    apply mem_true_get in Ho, Hc. destruct Ho as [o Ho], Hc as [c Hc].
    rewrite (shown_label_of e c Herr Hc). unfold get_default.
    rewrite Hl, Ho. simpl.
    destruct (pyval_eqb c o) eqn:Eq; auto.
    apply pyval_eqb_eq in Eq. subst o. congruence.
Qed.

(** the run in which GPT-4o-mini repeats its answer in the revision round
    and the revision call of Gemini fails *)
Lemma defended_iff_revision_kept_content_witness :
  exists s log',
    process_validation backend_gemini_quota seven_bit "2+2?" default_handler [0; 1] [1; 0] []
    = (Ok s, log')
    /\ (exists e, Dict.get "GPT-4o-mini" (results s) = Some e
                  /\ shown_label e = Some (VStr "Defended"))
    /\ forall n e, In (n, e) (results s) ->
         (shown_label e = Some (VStr "Defended")
          <-> successfully_revised e
              /\ Dict.get "content" e = Dict.get "original_content" e)
         /\ (successfully_revised e ->
             Dict.get "content" e <> Dict.get "original_content" e ->
             shown_label e = Some (VStr "Revised"))
         /\ Dict.get "label" e <> Some (VStr "Defended").
Proof.
  do 2 eexists. split; [vm_compute; reflexivity|].
  split; [eexists; split; reflexivity|].
  eapply (defended_iff_revision_kept_content backend_gemini_quota seven_bit "2+2?"
            default_handler [0; 1] [1; 0] []).
  vm_compute. reflexivity.
Defined.

(** * Further properties of the code *)

(** ** Registry operations *)

Lemma remove_fold name (ms acc : list model_info) :
  forallb (Dict.mem "name") ms = true ->
  res_fold (fun acc m =>
              n <-- subscript m "name" ;;
              Ok (if String.eqb n name then acc else (acc ++ [m])%list))
           ms acc
  = Ok (acc ++ filter (fun m => negb (String.eqb (provider_name m) name)) ms)%list.
Proof.
  revert acc. induction ms as [|m ms IH]; intros acc Hnamed; simpl.
  - now rewrite app_nil_r.
  - simpl in Hnamed. apply andb_true_iff in Hnamed. destruct Hnamed as [Hm Hms].
    apply mem_true_get in Hm. destruct Hm as [n Hn].
    unfold subscript, provider_name. rewrite Hn. simpl.
    rewrite IH by exact Hms.
    destruct (String.eqb n name); simpl; auto.
    now rewrite <- app_assoc.
Qed.

Lemma filter_other_names name (ms : list model_info) :
  ~ In name (map provider_name ms) ->
  filter (fun m => negb (String.eqb (provider_name m) name)) ms = ms.
Proof.
  induction ms as [|m ms IH]; simpl; auto.
  intros Hnot. destruct (String.eqb (provider_name m) name) eqn:E; simpl.
  - apply String.eqb_eq in E. tauto.
  - f_equal. apply IH. tauto.
Qed.

Lemma with_models_same h : with_models h (models h) = h.
Proof. now destruct h. Qed.

(** X1. On a registry whose configurations all have a name, [remove_model]
    returns the handler whose configurations are those registered under
    another name, in their order: the name is no longer registered, a name
    that was not registered leaves the handler as it was, and the judge is
    not touched. *)
Theorem remove_model_keeps_other_names :
  forall h name,
    all_named h = true ->
    exists h',
      remove_model h name = Ok h'
      /\ models h'
         = filter (fun m => negb (String.eqb (provider_name m) name)) (models h)
      /\ ~ In name (provider_names h')
      /\ (~ In name (provider_names h) -> h' = h)
      /\ judge_api h' = judge_api h
      /\ judge_model_id h' = judge_model_id h.
Proof.
  intros h name Hnamed. unfold remove_model.
  rewrite remove_fold by exact Hnamed. simpl.
  eexists. split; [reflexivity|]. simpl. repeat split.
  - unfold provider_names. simpl. intros Hin.
    apply in_map_iff in Hin. destruct Hin as (m & Hm & Hin).
    apply filter_In in Hin. destruct Hin as [_ Hne].
    rewrite Hm, String.eqb_refl in Hne. discriminate.
  - intros Hnot. rewrite filter_other_names by exact Hnot.
    apply with_models_same.
Qed.

Lemma remove_model_keeps_other_names_witness :
  exists h',
    remove_model default_handler "GPT-4o-mini" = Ok h'
    /\ models h'
       = filter (fun m => negb (String.eqb (provider_name m) "GPT-4o-mini"))
           (models default_handler)
    /\ ~ In "GPT-4o-mini" (provider_names h')
    /\ (~ In "GPT-4o-mini" (provider_names default_handler) -> h' = default_handler)
    /\ judge_api h' = judge_api default_handler
    /\ judge_model_id h' = judge_model_id default_handler.
Proof.
  apply (remove_model_keeps_other_names default_handler "GPT-4o-mini").
  reflexivity.
Defined.

Lemma added_model_name name model_id display_name :
  provider_name (added_model name model_id display_name) = name.
Proof. destruct display_name; reflexivity. Qed.

(** X2. Registering a provider under a name that is not yet registered
    and removing that name again gives back the handler: [remove_model]
    undoes [add_model]. *)
Theorem add_then_remove_restores :
  forall h name model_id display_name,
    all_named h = true ->
    ~ In name (provider_names h) ->
    remove_model (add_model h name model_id display_name) name = Ok h.
Proof.
  intros h name model_id display_name Hnamed Hfresh.
  assert (Hall : forallb (Dict.mem "name")
                   (models h ++ [added_model name model_id display_name]) = true).
  { rewrite forallb_app. apply andb_true_iff. split; [exact Hnamed|].
    destruct display_name; reflexivity. }
  unfold remove_model, add_model, with_models. cbn [models].
  rewrite remove_fold by exact Hall.
  cbn [res_bind app]. rewrite filter_app. cbn [filter].
  rewrite added_model_name, String.eqb_refl. cbn [negb].
  rewrite app_nil_r, filter_other_names by exact Hfresh.
  destruct h; reflexivity.
Qed.

Lemma add_then_remove_restores_witness :
  remove_model (add_model default_handler "Claude" "claude-3" None) "Claude"
  = Ok default_handler.
Proof.
  apply (add_then_remove_restores default_handler "Claude" "claude-3" None).
  - reflexivity.
  - simpl. intuition discriminate.
Defined.

(** ** Requests of the initial gather *)

Lemma res_fold_total {A B : Type} (f : B -> A -> res B) (xs : list A) (acc : B) :
  (forall acc x, In x xs -> exists acc', f acc x = Ok acc') ->
  exists r, res_fold f xs acc = Ok r.
Proof.
  revert acc. induction xs as [|x xs IH]; intros acc Hstep; simpl; eauto.
  destruct (Hstep acc x) as [acc' ->]; simpl; auto.
  apply IH. intros a y Hy. apply Hstep. simpl. auto.
Qed.

Lemma res_fold_raises {A B : Type} (f : B -> A -> res B) (xs : list A) (acc : B) e :
  (forall acc x, In x xs -> (exists acc', f acc x = Ok acc') \/ f acc x = Raise e) ->
  (exists x, In x xs /\ forall acc, f acc x = Raise e) ->
  res_fold f xs acc = Raise e.
Proof.
  revert acc. induction xs as [|x xs IH]; intros acc Hstep (y & Hy & Hraise).
  - destruct Hy.
  - simpl. destruct (Hstep acc x) as [[acc' Hok]|Hr]; simpl; auto.
    + rewrite Hok. simpl. destruct Hy as [->|Hy].
      * rewrite Hraise in Hok. discriminate.
      * apply IH; eauto. intros a z Hz. apply Hstep. simpl. auto.
    + now rewrite Hr.
Qed.

Lemma enumerate_in {A : Type} (xs : list A) i x :
  nth_error xs i = Some x -> In (i, x) (enumerate xs).
Proof.
  unfold enumerate.
  assert (G : forall (l : list A) k i x,
             nth_error l i = Some x -> In (k + i, x) (combine (seq k (length l)) l)).
  { clear. induction l as [|a l IH]; intros k i x Hnth.
    - destruct i; discriminate.
    - destruct i as [|i]; simpl in *.
      + injection Hnth as <-. rewrite Nat.add_0_r. auto.
      + right. replace (k + S i) with (S k + i) by lia. now apply IH. }
  intros Hnth. apply (G xs 0 i x Hnth).
Qed.

Lemma settle_all_log (backend : nat -> request -> outcome) cs log :
  exists rs,
    settle_all backend cs log = (Ok rs, (log ++ flat_map requests_of cs)%list)
    /\ length rs = length cs.
Proof.
  revert log. induction cs as [|c cs IH]; intros log; simpl.
  - exists []. now rewrite app_nil_r.
  - unfold bind. destruct c as [r|req k]; simpl.
    + destruct (IH log) as (rs & -> & Hlen). exists (r :: rs). simpl. auto.
    + destruct (IH (log ++ [req])%list) as (rs & -> & Hlen).
      exists (k (backend (length log) req) :: rs). simpl.
      rewrite <- app_assoc. simpl. auto.
Qed.

Lemma initial_tasks_requests question (ms : list model_info) tasks :
  res_map (fun m =>
             api <-- subscript m "api" ;;
             model_id <-- subscript m "model_id" ;;
             Ok (_make_api_call api model_id [Message "user" question] default_temp))
          ms = Ok tasks ->
  flat_map requests_of tasks = flat_map (initial_request question) ms.
Proof.
  revert tasks. induction ms as [|m ms IH]; intros tasks Hrun; simpl in Hrun.
  - now injection Hrun as <-.
  - unfold subscript in Hrun at 1 2.
    destruct (Dict.get "api" m) as [api|] eqn:Eapi; simpl in Hrun; [|discriminate].
    destruct (Dict.get "model_id" m) as [mid|] eqn:Emid; simpl in Hrun;
      [|discriminate].
    match type of Hrun with
    | context [res_map ?f ms] => destruct (res_map f ms) as [ts|] eqn:Ets
    end; simpl in Hrun; [|discriminate].
    injection Hrun as <-. simpl. rewrite (IH ts eq_refl). f_equal.
    unfold initial_request. rewrite Eapi, Emid. unfold _make_api_call.
    destruct (String.eqb api "openai"); [reflexivity|].
    destruct (String.eqb api "gemini"); reflexivity.
Qed.

Lemma callable_tasks h question :
  forallb callable (models h) = true ->
  exists tasks, initial_tasks h question = Ok tasks.
Proof.
  intros Hall. unfold initial_tasks.
  edestruct (res_map_total
               (fun m =>
                  api <-- subscript m "api" ;;
                  model_id <-- subscript m "model_id" ;;
                  Ok (_make_api_call api model_id [Message "user" question]
                        default_temp)) (models h)) as (ys & Hys & _).
  - intros m Hm. rewrite forallb_forall in Hall. specialize (Hall m Hm).
    unfold callable in Hall. apply andb_true_iff in Hall. destruct Hall as [Ha Hm'].
    apply mem_true_get in Ha, Hm'. destruct Ha as [api Ha], Hm' as [mid Hm'].
    unfold subscript. rewrite Ha, Hm'. simpl. eauto.
  - eauto.
Qed.

(** the run of the initial gather up to its loop over the results *)
Lemma initial_gather_requests (backend : nat -> request -> outcome)
  h question sched log :
  forallb callable (models h) = true ->
  Permutation sched (seq 0 (length (models h))) ->
  exists rs,
    length rs = length (models h)
    /\ get_initial_answers backend h question sched log
       = (collect_initial h rs,
          (log ++ flat_map (initial_request question) (models h))%list).
Proof.
  intros Hcall Hperm.
  destruct (callable_tasks h question Hcall) as [tasks Htasks].
  destruct (initial_tasks_inv h question tasks Htasks) as [Hlen _].
  destruct (settle_all_log backend tasks log) as (rs & Hrun & Hrs).
  exists rs. split; [congruence|].
  unfold get_initial_answers, bind, lift.
  rewrite Htasks, gather_in_task_order, Hrun by (now rewrite Hlen).
  unfold initial_tasks in Htasks.
  rewrite (initial_tasks_requests question (models h) tasks Htasks).
  now destruct (collect_initial h rs).
Qed.

(** X3. When every configuration has a name, a model identifier and a
    capability, the initial gather returns a result set and issues exactly
    the requests of the configurations, in registration order: one chat
    request with the question as its only message for an [openai]
    configuration, one generation request with the question as its prompt
    for a [gemini] one, both at the default temperature, and none for any
    other capability. *)
Theorem initial_gather_asks_each_provider_once :
  forall (backend : nat -> request -> outcome) h question sched log,
    forallb configured (models h) = true ->
    Permutation sched (seq 0 (length (models h))) ->
    exists ans,
      get_initial_answers backend h question sched log
      = (Ok ans, (log ++ flat_map (initial_request question) (models h))%list).
Proof.
  intros backend h question sched log Hconf Hperm.
  assert (Hcall : forallb callable (models h) = true).
  { rewrite forallb_forall in *. intros m Hm. specialize (Hconf m Hm).
    unfold configured in Hconf. unfold callable.
    rewrite !andb_true_iff in *. tauto. }
  destruct (initial_gather_requests backend h question sched log Hcall Hperm)
    as (rs & Hlen & ->).
  destruct (res_fold_total
              (fun (acc : answers) ir =>
                 model_info <-- index (models h) (fst ir) ;;
                 name <-- subscript model_info "name" ;;
                 Ok (Dict.set name
                       (Dict.update (snd ir) (Dict.map_values VStr model_info)) acc))
              (enumerate rs) Dict.empty) as [ans Hans].
  - intros acc [i r] Hin. apply in_enumerate in Hin. simpl.
    assert (Hi : i < length (models h)).
    { rewrite <- Hlen. apply nth_error_Some. intros Hnone.
      discriminate (eq_trans (eq_sym Hin) Hnone). }
    apply nth_error_Some in Hi. unfold index.
    destruct (nth_error (models h) i) as [m|] eqn:Em; [|contradiction]. simpl.
    rewrite forallb_forall in Hconf.
    destruct (configured_fields m (Hconf m (nth_error_In _ _ Em))) as (Hn & _).
    unfold subscript. rewrite Hn. simpl. eauto.
  - exists ans. unfold collect_initial. now rewrite Hans.
Qed.

Lemma initial_gather_asks_each_provider_once_witness :
  exists ans,
    get_initial_answers backend_down default_handler "2+2?" [1; 0] []
    = (Ok ans,
       ([] ++ flat_map (initial_request "2+2?") (models default_handler))%list).
Proof.
  apply (initial_gather_asks_each_provider_once backend_down default_handler
           "2+2?" [1; 0] []).
  - reflexivity.
  - simpl. apply perm_swap.
Defined.

(** X4. A configuration without a name, among configurations that all
    have a model identifier and a capability, makes the initial gather
    raise [KeyError] for [name] only in its loop over the results: every
    request of the batch has been issued by then. *)
Theorem initial_gather_without_name_raises_after_requests :
  forall (backend : nat -> request -> outcome) h question sched log m,
    forallb callable (models h) = true ->
    Permutation sched (seq 0 (length (models h))) ->
    In m (models h) ->
    Dict.mem "name" m = false ->
    get_initial_answers backend h question sched log
    = (Raise (KeyError "name"),
       (log ++ flat_map (initial_request question) (models h))%list).
Proof.
  intros backend h question sched log m Hcall Hperm Hm Hnameless.
  destruct (initial_gather_requests backend h question sched log Hcall Hperm)
    as (rs & Hlen & ->).
  f_equal. unfold collect_initial. apply res_fold_raises.
  - intros acc [i r] Hin. apply in_enumerate in Hin. simpl.
    assert (Hi : i < length (models h)).
    { rewrite <- Hlen. apply nth_error_Some. intros Hnone.
      discriminate (eq_trans (eq_sym Hin) Hnone). }
    apply nth_error_Some in Hi. unfold index.
    destruct (nth_error (models h) i) as [m'|] eqn:Em; [|contradiction]. simpl.
    unfold subscript. destruct (Dict.get "name" m'); simpl; eauto.
  - apply In_nth_error in Hm. destruct Hm as [j Hj].
    assert (Hjr : j < length rs).
    { rewrite Hlen. apply nth_error_Some. rewrite Hj. discriminate. }
    apply nth_error_Some in Hjr.
    destruct (nth_error rs j) as [r|] eqn:Er; [|contradiction].
    exists (j, r). split; [now apply enumerate_in|].
    intros acc. simpl. unfold index. rewrite Hj. simpl.
    apply mem_false_get in Hnameless. unfold subscript. now rewrite Hnameless.
Qed.

Lemma initial_gather_without_name_raises_after_requests_witness :
  get_initial_answers backend_down (with_models default_handler [nameless])
    "2+2?" [0] []
  = (Raise (KeyError "name"),
     ([] ++ flat_map (initial_request "2+2?")
              (models (with_models default_handler [nameless])))%list).
Proof.
  apply (initial_gather_without_name_raises_after_requests backend_down
           (with_models default_handler [nameless]) "2+2?" [0] [] nameless).
  - reflexivity.
  - simpl. apply Permutation_refl.
  - simpl. auto.
  - reflexivity.
Defined.

(** ** Requests of the judging step *)

(** X5. With an [openai] judge and at least two content-bearing entries,
    the judging step issues exactly one request: a chat request to the
    judge model at temperature 0 whose only message is the comparison
    prompt of the first two answers; the answers after the second reach
    neither the request nor the outcome. The outcome is read off the
    outcome of that request: for a reply with text it is the test that the
    text, stripped and in upper case, is YES, which on 7-bit text holds
    exactly for YES in any letter case between white space; for a failed
    call it is [False]; for a reply whose content is not text the step
    raises [AttributeError]. *)
Theorem judge_asked_once_about_first_two :
  forall (backend : nat -> request -> outcome) (py : PyStr)
         h question ans log first second rest,
    answer_list ans = Ok (first :: second :: rest) ->
    judge_api h = "openai" ->
    let req :=
      OpenAIChat (judge_model_id h)
        [Message "user" (comparison_prompt question first second)] 0 in
    are_answers_similar backend py h question ans log
    = (match backend (length log) req with
       | Returned (VStr reply) =>
           Ok (String.eqb (str_upper py (str_strip py reply)) "YES")
       | Returned _ => Raise (AttributeError "strip")
       | Failed _ => Ok false
       end,
       (log ++ [req])%list)
    /\ forall reply,
         ascii_text reply = true ->
         String.eqb (str_upper py (str_strip py reply)) "YES" = true
         <-> trimmed_yes reply.
Proof.
  intros backend py h question ans log first second rest Hlist Hjudge req.
  split; [|intros reply; apply text_verdict].
  subst req. now apply (judge_openai_outcome backend py h question ans log
                          first second rest).
Qed.

(** two answers and a judge that replies with a padded lower-case yes *)
Lemma judge_asked_once_about_first_two_witness :
  are_answers_similar backend_says_yes seven_bit default_handler "2+2?"
    initial_two_answers []
  = (match backend_says_yes (length (@nil request))
             (OpenAIChat (judge_model_id default_handler)
                [Message "user"
                   (comparison_prompt "2+2?" "Answer from GPT-4o-mini:\nfour"
                      "Answer from Gemini-1.5-Flash:\n4")] 0) with
     | Returned (VStr reply) =>
         Ok (String.eqb (str_upper seven_bit (str_strip seven_bit reply)) "YES")
     | Returned _ => Raise (AttributeError "strip")
     | Failed _ => Ok false
     end,
     ([] ++ [OpenAIChat (judge_model_id default_handler)
               [Message "user"
                  (comparison_prompt "2+2?" "Answer from GPT-4o-mini:\nfour"
                     "Answer from Gemini-1.5-Flash:\n4")] 0])%list)
  /\ forall reply,
       ascii_text reply = true ->
       String.eqb (str_upper seven_bit (str_strip seven_bit reply)) "YES" = true
       <-> trimmed_yes reply.
Proof.
  apply (judge_asked_once_about_first_two backend_says_yes seven_bit
           default_handler "2+2?" initial_two_answers [] _ _ []).
  - reflexivity.
  - reflexivity.
Defined.

Lemma res_map_raises {A B : Type} (f : A -> res B) (xs : list A) e :
  (forall x, In x xs -> (exists y, f x = Ok y) \/ f x = Raise e) ->
  (exists x, In x xs /\ f x = Raise e) ->
  res_map f xs = Raise e.
Proof.
  induction xs as [|x xs IH]; intros Hall (y & Hy & Hraise).
  - destruct Hy.
  - simpl. destruct (Hall x) as [[z Hz]|Hr]; [simpl; auto| |].
    + rewrite Hz. simpl. destruct Hy as [->|Hy]; [congruence|].
      rewrite IH; eauto. intros w Hw. apply Hall. simpl. auto.
    + now rewrite Hr.
Qed.

(** X6. A content-bearing entry without the field [name] makes the
    judging step raise [KeyError] for [name] while it builds the list of
    answers, whatever the number of content-bearing entries; no request is
    issued. *)
Theorem judge_raises_on_unnamed_answer :
  forall (backend : nat -> request -> outcome) (py : PyStr) h question (ans : answers) log n e,
    In (n, e) ans ->
    Dict.mem "content" e = true ->
    Dict.mem "name" e = false ->
    are_answers_similar backend py h question ans log = (Raise (KeyError "name"), log).
Proof.
  intros backend py h question ans log n e Hin Hcontent Hname.
  unfold are_answers_similar, bind, lift, answer_list.
  rewrite (res_map_raises _ _ (KeyError "name")); auto.
  - intros [n' e'] Hin'. apply filter_In in Hin'. destruct Hin' as [_ Hc].
    simpl in Hc |- *. apply mem_true_get in Hc. destruct Hc as [c Hc].
    unfold subscript. destruct (Dict.get "name" e') as [nm|]; simpl; auto.
    rewrite Hc. simpl. eauto.
  - exists (n, e). split.
    + apply filter_In. auto.
    + simpl. apply mem_false_get in Hname. unfold subscript. now rewrite Hname.
Qed.

Lemma judge_raises_on_unnamed_answer_witness :
  are_answers_similar backend_down seven_bit default_handler "2+2?" unnamed_answer []
  = (Raise (KeyError "name"), []).
Proof.
  apply (judge_raises_on_unnamed_answer backend_down seven_bit default_handler "2+2?"
           unnamed_answer [] "GPT-4o-mini"
           [("success", VBool true); ("content", VStr "four")]).
  - simpl. auto.
  - reflexivity.
  - reflexivity.
Defined.

(** ** Requests and entries of the revision round *)

Lemma revised_entry_total (own result : entry) :
  dispatched result -> exists e, revised_entry (Ok own) result = Ok e.
Proof.
  intros Hd. destruct (dispatched_shape result Hd) as (_ & _ & Hs).
  unfold revised_entry, subscript.
  destruct Hs as [[Hs Hc]|[Hs He]]; rewrite Hs; simpl.
  - apply mem_true_get in Hc. destruct Hc as [c ->]. simpl. eauto.
  - apply mem_true_get in He. destruct He as [err ->]. simpl. eauto.
Qed.

(** the revision round of two providers with content on both sides *)
Lemma revision_two_providers (backend : nat -> request -> outcome)
  h question orig log m1 m2 n1 n2 api1 id1 api2 id2 own1 own2 c1 c2 :
  models h = [m1; m2] ->
  Dict.get "name" m1 = Some n1 -> Dict.get "name" m2 = Some n2 -> n1 <> n2 ->
  Dict.get "api" m1 = Some api1 -> Dict.get "model_id" m1 = Some id1 ->
  Dict.get "api" m2 = Some api2 -> Dict.get "model_id" m2 = Some id2 ->
  Dict.get n1 orig = Some own1 -> Dict.get "content" own1 = Some c1 ->
  Dict.get n2 orig = Some own2 -> Dict.get "content" own2 = Some c2 ->
  let call1 :=
    _make_api_call api1 id1
      [Message "user" (feedback_prompt question (py_str c1) (py_str c2))]
      default_temp in
  let call2 :=
    _make_api_call api2 id2
      [Message "user" (feedback_prompt question (py_str c2) (py_str c1))]
      default_temp in
  exists rev,
    (forall sched, Permutation sched [0; 1] ->
       get_revised_answers backend h question orig sched log
       = (Ok rev, (log ++ requests_of call1 ++ requests_of call2)%list))
    /\ Dict.keys rev = [n1; n2].
Proof.
  intros Hms Hn1 Hn2 Hne Ha1 Hi1 Ha2 Hi2 Ho1 Hc1 Ho2 Hc2 call1 call2.
  assert (Hne12 : String.eqb n1 n2 = false) by now apply String.eqb_neq.
  assert (Hne21 : String.eqb n2 n1 = false)
    by (apply String.eqb_neq; intros H; now subst).
  assert (Hother1 : next_other (models h) n1 = Ok (Some m2)).
  { rewrite Hms. simpl. unfold subscript. rewrite Hn1, Hn2. simpl.
    now rewrite String.eqb_refl, Hne21. }
  assert (Hother2 : next_other (models h) n2 = Ok (Some m1)).
  { rewrite Hms. simpl. unfold subscript. rewrite Hn1. simpl. now rewrite Hne12. }
  assert (Htasks : revision_tasks h question orig = Ok [(n1, call1); (n2, call2)]).
  { unfold revision_tasks. rewrite Hms. simpl.
    rewrite (revision_task_calls h question orig m1 n1 Hn1 m2 n2 Hother1 Hn2
               own1 own2 Ho1 Ho2 c1 c2 api1 id1 Hc1 Hc2 Ha1 Hi1).
    simpl.
    rewrite (revision_task_calls h question orig m2 n2 Hn2 m1 n1 Hother2 Hn1
               own2 own1 Ho2 Ho1 c2 c1 api2 id2 Hc2 Hc1 Ha2 Hi2).
    reflexivity. }
  destruct (settle_all_log backend [call1; call2] log) as (rs & Hrun & Hlen).
  assert (Hd : Forall dispatched rs).
  { eapply (settle_all_dispatched backend [call1; call2] log rs); [|exact Hrun].
    intros c [<-|[<-|[]]]; subst call1 call2; eauto. }
  destruct rs as [|r1 [|r2 [|r3 rs]]]; try discriminate.
  inversion Hd as [|? ? Hd1 Hd']; subst. inversion Hd' as [|? ? Hd2 _]; subst.
  destruct (revised_entry_total own1 r1 Hd1) as [e1 He1].
  destruct (revised_entry_total own2 r2 Hd2) as [e2 He2].
  exists [(n1, e1); (n2, e2)]. split; [|reflexivity].
  intros sched Hperm.
  unfold get_revised_answers, bind, lift. rewrite Htasks.
  cbn [map snd]. rewrite gather_in_task_order by exact Hperm.
  rewrite Hrun. simpl flat_map. rewrite app_nil_r.
  unfold collect_revised, enumerate, index.
  cbn [length seq combine res_fold fst snd nth_error res_bind].
  unfold subscript, answers, entry in *.
  rewrite Ho1, He1. cbn [res_bind]. rewrite Ho2, He2. cbn [res_bind].
  simpl. now rewrite Hne12.
Qed.

(** X7. With two configured providers of different names whose initial
    entries both have content, the revision step issues exactly the
    request of each provider's own call, first provider first, and returns
    a result set with an entry for each of the two: the prompt of a
    provider quotes its own answer as its and the other's as the other
    model's. *)
Theorem revision_asks_both_providers :
  forall (backend : nat -> request -> outcome) h question orig sched log
         m1 m2 n1 n2 api1 id1 api2 id2 own1 own2 c1 c2,
    models h = [m1; m2] ->
    Dict.get "name" m1 = Some n1 -> Dict.get "name" m2 = Some n2 -> n1 <> n2 ->
    Dict.get "api" m1 = Some api1 -> Dict.get "model_id" m1 = Some id1 ->
    Dict.get "api" m2 = Some api2 -> Dict.get "model_id" m2 = Some id2 ->
    Dict.get n1 orig = Some own1 -> Dict.get "content" own1 = Some c1 ->
    Dict.get n2 orig = Some own2 -> Dict.get "content" own2 = Some c2 ->
    Permutation sched [0; 1] ->
    let call1 :=
      _make_api_call api1 id1
        [Message "user" (feedback_prompt question (py_str c1) (py_str c2))]
        default_temp in
    let call2 :=
      _make_api_call api2 id2
        [Message "user" (feedback_prompt question (py_str c2) (py_str c1))]
        default_temp in
    exists rev,
      get_revised_answers backend h question orig sched log
      = (Ok rev, (log ++ requests_of call1 ++ requests_of call2)%list)
      /\ Dict.keys rev = [n1; n2].
Proof.
  intros backend h question orig sched log m1 m2 n1 n2 api1 id1 api2 id2
         own1 own2 c1 c2 Hms Hn1 Hn2 Hne Ha1 Hi1 Ha2 Hi2 Ho1 Hc1 Ho2 Hc2 Hperm
         call1 call2.
  destruct (revision_two_providers backend h question orig log m1 m2 n1 n2
              api1 id1 api2 id2 own1 own2 c1 c2
              Hms Hn1 Hn2 Hne Ha1 Hi1 Ha2 Hi2 Ho1 Hc1 Ho2 Hc2)
    as (rev & Hrun & Hkeys).
  exists rev. split; [now apply Hrun|exact Hkeys].
Qed.

Lemma revision_asks_both_providers_witness :
  exists rev,
    get_revised_answers backend_gemini_quota default_handler "2+2?"
      initial_two_answers [1; 0] []
    = (Ok rev,
       ([] ++ requests_of
                (_make_api_call "openai" "gpt-4o-mini"
                   [Message "user"
                      (feedback_prompt "2+2?" (py_str (VStr "four"))
                         (py_str (VStr "4")))] default_temp)
           ++ requests_of
                (_make_api_call "gemini" "gemini-1.5-flash-latest"
                   [Message "user"
                      (feedback_prompt "2+2?" (py_str (VStr "4"))
                         (py_str (VStr "four")))] default_temp))%list)
    /\ Dict.keys rev = ["GPT-4o-mini"; "Gemini-1.5-Flash"].
Proof.
  eapply (revision_asks_both_providers backend_gemini_quota default_handler "2+2?"
            initial_two_answers [1; 0] []);
    try reflexivity.
  - discriminate.
  - apply perm_swap.
Defined.

Lemma next_other_named (ms : list model_info) n :
  forallb (Dict.mem "name") ms = true ->
  next_other ms n = Ok None
  \/ exists other other_name,
       next_other ms n = Ok (Some other) /\ Dict.get "name" other = Some other_name.
Proof.
  induction ms as [|m ms IH]; intros Hnamed; simpl; auto.
  simpl in Hnamed. apply andb_true_iff in Hnamed. destruct Hnamed as [Hm Hms].
  apply mem_true_get in Hm. destruct Hm as [nm Hnm].
  unfold subscript. rewrite Hnm. simpl.
  destruct (String.eqb nm n); simpl; eauto.
Qed.

Lemma revision_tasks_all_skipped h question (orig : answers) :
  (forall m, In m (models h) -> revision_task h question orig m = Ok None) ->
  revision_tasks h question orig = Ok [].
Proof.
  unfold revision_tasks. generalize (@nil (string * coroutine)).
  induction (models h) as [|m ms IH]; intros acc Hskip; simpl; auto.
  rewrite (Hskip m) by (simpl; auto). simpl.
  apply IH. intros m' Hm'. apply Hskip. simpl. auto.
Qed.

(** X8. On a registry whose configurations all have a name, the revision
    step asks nobody when there is at most one provider, and when the
    original result set is empty: it returns the empty result set and
    issues no request. *)
Theorem revision_skips_without_counterpart_or_entries :
  forall (backend : nat -> request -> outcome) h question (orig : answers) sched log,
    all_named h = true ->
    length (models h) <= 1 \/ orig = Dict.empty ->
    get_revised_answers backend h question orig sched log = (Ok Dict.empty, log).
Proof.
  intros backend h question orig sched log Hnamed Hcase.
  assert (Htasks : revision_tasks h question orig = Ok []).
  { apply revision_tasks_all_skipped. intros m Hm.
    unfold all_named in Hnamed.
    pose proof Hnamed as Hall. rewrite forallb_forall in Hall.
    pose proof (Hall m Hm) as Hmn. apply mem_true_get in Hmn.
    destruct Hmn as [n Hn].
    destruct Hcase as [Hone| ->].
    - apply (revision_task_no_counterpart h question orig m n Hn).
      destruct (models h) as [|m0 [|m1 ms]]; simpl in Hone; try lia.
      + destruct Hm.
      + destruct Hm as [->|[]]. simpl. unfold subscript. rewrite Hn. simpl.
        now rewrite String.eqb_refl.
    - destruct (next_other_named (models h) n Hnamed) as [Hnone|(o & on & Ho & Hon)].
      + now apply (revision_task_no_counterpart h question _ m n Hn).
      + apply (revision_task_missing_entry h question _ m n Hn o on Ho Hon).
        now left. }
  unfold get_revised_answers, bind, lift. rewrite Htasks. reflexivity.
Qed.

Lemma revision_skips_without_counterpart_or_entries_witness :
  get_revised_answers backend_down default_handler "2+2?" Dict.empty [0; 1] []
  = (Ok Dict.empty, []).
Proof.
  apply (revision_skips_without_counterpart_or_entries backend_down
           default_handler "2+2?" Dict.empty [0; 1] []).
  - reflexivity.
  - now right.
Defined.

(** a join never raises *)
Lemma gather_total (backend : nat -> request -> outcome) sched cs log :
  exists rs log', gather backend sched cs log = (Ok rs, log').
Proof.
  unfold gather, bind, ret.
  destruct (settle_all_total backend cs log) as (settled & l & -> & _). eauto.
Qed.

Lemma res_fold_raise_inv {A B : Type} (f : B -> A -> res B) (xs : list A)
  (acc : B) e :
  res_fold f xs acc = Raise e ->
  exists acc' x, In x xs /\ f acc' x = Raise e.
Proof.
  revert acc. induction xs as [|x xs IH]; intros acc Hrun; simpl in Hrun.
  - discriminate.
  - destruct (f acc x) as [acc'|e'] eqn:E; simpl in Hrun.
    + destruct (IH acc' Hrun) as (a & y & Hy & Hf). exists a, y. simpl. auto.
    + injection Hrun as <-. exists acc, x. simpl. auto.
Qed.

(** X9. The revision step reads every field it needs for the prompts
    before it starts the batch: when it raises [KeyError], no request has
    been issued. *)
Theorem revision_key_error_issues_no_request :
  forall (backend : nat -> request -> outcome) h question orig sched log key log',
    get_revised_answers backend h question orig sched log
    = (Raise (KeyError key), log') ->
    log' = log.
Proof.
  intros backend h question orig sched log key log'.
  unfold get_revised_answers, bind, lift. intros Hrun.
  destruct (revision_tasks h question orig) as [tasks|e] eqn:Et;
    [|now injection Hrun as _ <-].
  exfalso.
  destruct (gather_total backend sched (map snd tasks) log) as (rs & l & Eg).
  rewrite Eg in Hrun.
  destruct (collect_revised orig tasks rs) as [rev|e] eqn:Ec; [discriminate|].
  injection Hrun as -> _.
  unfold collect_revised in Ec. apply res_fold_raise_inv in Ec.
  destruct Ec as (acc & [i [n c]] & Hin & Hf). simpl in Hf.
  apply in_enumerate in Hin. apply nth_error_In in Hin.
  destruct (revision_tasks_inv _ _ _ _ Et n c Hin) as (_ & (own & Hown & _) & _).
  unfold index in Hf.
  destruct (nth_error rs i) as [result|] eqn:Er; simpl in Hf; [|discriminate].
  assert (Hd : dispatched result).
  { apply (gather_dispatched _ _ _ _ _ _) with (r := result) in Eg; auto.
    - intros c' Hc'. apply in_map_iff in Hc'.
      destruct Hc' as ([n' c''] & <- & Hin').
      now destruct (revision_tasks_inv _ _ _ _ Et n' c'' Hin') as (_ & _ & Hapi).
    - eapply nth_error_In; eauto. }
  destruct (revised_entry_total own result Hd) as [e He].
  unfold subscript in Hf. unfold answers, entry in *.
  rewrite Hown, He in Hf. discriminate.
Qed.

Lemma revision_key_error_issues_no_request_witness :
  get_revised_answers backend_openai_down default_handler "2+2?"
    initial_openai_down [0; 1] [] = (Raise (KeyError "content"), [])
  /\ @nil request = [].
Proof.
  split; [reflexivity|].
  apply (revision_key_error_issues_no_request backend_openai_down default_handler
           "2+2?" initial_openai_down [0; 1] [] "content" []).
  reflexivity.
Defined.

Lemma revised_entry_frame (own result e : entry) c :
  Dict.get "content" own = Some c ->
  revised_entry (Ok own) result = Ok e ->
  (forall k, k <> "content" -> k <> "original_content" -> k <> "error" ->
             Dict.get k e = Dict.get k own)
  /\ (Dict.get "content" e = Some c \/ Dict.get "original_content" e = Some c).
Proof.
  intros Hc Hrun. unfold revised_entry, subscript, get_or_none in Hrun.
  destruct (Dict.get "success" result) as [ok|]; simpl in Hrun; [|discriminate].
  destruct (truthy ok).
  - destruct (Dict.get "content" result) as [new|]; simpl in Hrun; [|discriminate].
    injection Hrun as <-. rewrite Hc. split.
    + intros k H1 H2 H3. rewrite !get_set_other; auto.
    + right. apply get_set_same.
  - destruct (Dict.get "error" result) as [err|]; simpl in Hrun; [|discriminate].
    injection Hrun as <-. split.
    + intros k H1 H2 H3. rewrite get_set_other; auto.
    + left. rewrite get_set_other by discriminate. exact Hc.
Qed.

(** X10. Every entry that the revision step returns is the provider's
    original entry with nothing changed but the fields [content],
    [original_content] and [error]; the original answer is never lost: it
    is still the content of the entry or it is recorded as its original
    content. *)
Theorem revision_keeps_other_fields_and_original_answer :
  forall (backend : nat -> request -> outcome) h question orig sched log rev log',
    get_revised_answers backend h question orig sched log = (Ok rev, log') ->
    forall n e, In (n, e) rev ->
      exists own c,
        Dict.get n orig = Some own
        /\ Dict.get "content" own = Some c
        /\ (forall k, k <> "content" -> k <> "original_content" -> k <> "error" ->
                      Dict.get k e = Dict.get k own)
        /\ (Dict.get "content" e = Some c \/ Dict.get "original_content" e = Some c).
Proof.
  intros backend h question orig sched log rev log' Hrev n e Hin.
  destruct (get_revised_answers_inv _ _ _ _ _ _ _ _ Hrev)
    as (tasks & rs & Ht & Hg & Hc).
  destruct (collect_revised_entries _ _ _ _ Hc n e Hin)
    as (c & result & Hnc & Hr & He).
  destruct (revision_tasks_inv _ _ _ _ Ht n c Hnc)
    as (_ & (own & Hown & Hcontent) & _).
  apply mem_true_get in Hcontent. destruct Hcontent as [text Htext].
  unfold subscript in He. unfold answers, entry in *. rewrite Hown in He.
  destruct (revised_entry_frame own result e text Htext He) as [Hframe Hkept].
  exists own, text. auto.
Qed.

Lemma revision_keeps_other_fields_and_original_answer_witness :
  exists rev log',
    get_revised_answers backend_gemini_quota default_handler "2+2?"
      initial_two_answers [0; 1] [] = (Ok rev, log')
    /\ forall n e, In (n, e) rev ->
         exists own c,
           Dict.get n initial_two_answers = Some own
           /\ Dict.get "content" own = Some c
           /\ (forall k, k <> "content" -> k <> "original_content" ->
                         k <> "error" -> Dict.get k e = Dict.get k own)
           /\ (Dict.get "content" e = Some c
               \/ Dict.get "original_content" e = Some c).
Proof.
  do 2 eexists. split; [vm_compute; reflexivity|].
  eapply (revision_keeps_other_fields_and_original_answer backend_gemini_quota
            default_handler "2+2?" initial_two_answers [0; 1] []).
  vm_compute. reflexivity.
Defined.

(** ** The providers of a run *)

Lemma collect_initial_nodup h rs ans :
  collect_initial h rs = Ok ans -> NoDup (Dict.keys ans).
Proof.
  unfold collect_initial.
  apply (res_fold_invariant (fun ans : answers => NoDup (Dict.keys ans))).
  - constructor.
  - intros acc [i r] acc' _ Hacc Hstep. simpl in Hstep.
    destruct (index (models h) i) as [m|]; simpl in Hstep; [|discriminate].
    destruct (subscript m "name") as [n|]; simpl in Hstep; [|discriminate].
    injection Hstep as <-. now apply nodup_set.
Qed.

Lemma keys_fold_set {V W : Type} (g : V -> W) (l : Dict.t V) (acc : Dict.t W) :
  NoDup (Dict.keys acc ++ Dict.keys l) ->
  Dict.keys (fold_left (fun acc kv => Dict.set (fst kv) (g (snd kv)) acc) l acc)
  = (Dict.keys acc ++ Dict.keys l)%list.
Proof.
  revert acc. induction l as [|[k v] l IH]; intros acc Hnd; simpl.
  - now rewrite app_nil_r.
  - simpl in Hnd. rewrite IH.
    + rewrite keys_set.
      destruct (Dict.mem k acc) eqn:E.
      * apply mem_keys in E. apply NoDup_remove_2 in Hnd.
        exfalso. apply Hnd. apply in_or_app. auto.
      * now rewrite <- app_assoc.
    + rewrite keys_set.
      destruct (Dict.mem k acc) eqn:E.
      * apply mem_keys in E. apply NoDup_remove_2 in Hnd.
        exfalso. apply Hnd. apply in_or_app. auto.
      * now rewrite <- app_assoc.
Qed.

Lemma initial_results_keys (ans : answers) :
  NoDup (Dict.keys ans) -> Dict.keys (initial_results ans) = Dict.keys ans.
Proof.
  intros Hnd. unfold initial_results.
  apply (keys_fold_set original_entry ans Dict.empty). exact Hnd.
Qed.

Lemma merge_results_keys (results revised merged : answers) :
  merge_results results revised = Ok merged ->
  Dict.keys merged = Dict.keys results.
Proof.
  unfold merge_results.
  apply (res_fold_invariant
           (fun acc : answers => Dict.keys acc = Dict.keys results)); auto.
  intros acc [k data] acc' _ Hacc Hstep. simpl in Hstep.
  unfold subscript in Hstep.
  destruct (Dict.get k acc) as [current|] eqn:E; simpl in Hstep; [|discriminate].
  injection Hstep as <-. rewrite keys_set.
  assert (Hmem : Dict.mem k acc = true) by (apply mem_true_get; eauto).
  now rewrite Hmem.
Qed.

(** X11. The results of a run have exactly the keys of the result set of
    its initial gather, in the same order and without repetition: the
    judging step and the revision round neither add nor drop a provider. *)
Theorem run_keeps_the_providers_of_the_initial_gather :
  forall (backend : nat -> request -> outcome) (py : PyStr) question h sched1 sched2 log s log',
    process_validation backend py question h sched1 sched2 log = (Ok s, log') ->
    exists ans log1,
      get_initial_answers backend h question sched1 log = (Ok ans, log1)
      /\ Dict.keys (results s) = Dict.keys ans
      /\ NoDup (Dict.keys ans).
Proof.
  intros backend py question h sched1 sched2 log s log'.
  unfold process_validation, bind, ret, lift. intros Hrun.
  destruct (get_initial_answers backend h question sched1 log)
    as [[ans|x] log1] eqn:Einit; [|discriminate].
  assert (Hnd : NoDup (Dict.keys ans)).
  { destruct (get_initial_answers_inv _ _ _ _ _ _ _ Einit) as (t & rs & _ & _ & Hc).
    eapply collect_initial_nodup; eauto. }
  exists ans, log1. split; [reflexivity|]. split; [|exact Hnd].
  destruct (are_answers_similar backend py h question ans log1)
    as [[similar|x] log2]; [|discriminate].
  destruct similar.
  - injection Hrun as <- _. now apply initial_results_keys.
  - destruct (get_revised_answers backend h question ans sched2 log2)
      as [[rev|x] log3]; [|discriminate].
    destruct (merge_results (initial_results ans) rev) as [merged|x] eqn:Em;
      [|discriminate].
    injection Hrun as <- _. simpl.
    rewrite (merge_results_keys _ _ _ Em). now apply initial_results_keys.
Qed.

Lemma run_keeps_the_providers_of_the_initial_gather_witness :
  exists ans log1,
    get_initial_answers backend_gemini_quota default_handler "2+2?" [0; 1] []
    = (Ok ans, log1)
    /\ Dict.keys
         (results
            (Session
               [("GPT-4o-mini",
                 [("success", VBool true); ("content", VStr "four");
                  ("name", VStr "GPT-4o-mini"); ("model_id", VStr "gpt-4o-mini");
                  ("api", VStr "openai"); ("label", VStr "Revised");
                  ("label_class", VStr "revised-label");
                  ("display_name", VStr "GPT-4o-mini");
                  ("original_content", VStr "four")]);
                ("Gemini-1.5-Flash",
                 [("success", VBool true); ("content", VStr "4");
                  ("name", VStr "Gemini-1.5-Flash");
                  ("model_id", VStr "gemini-1.5-flash-latest");
                  ("api", VStr "gemini"); ("label", VStr "Revised");
                  ("label_class", VStr "revised-label");
                  ("display_name", VStr "Gemini-1.5-Flash");
                  ("original_content", VStr "4");
                  ("error", VStr "Gemini Error: quota")])] true true))
       = Dict.keys ans
    /\ NoDup (Dict.keys ans).
Proof.
  eapply (run_keeps_the_providers_of_the_initial_gather backend_gemini_quota seven_bit
            "2+2?" default_handler [0; 1] [1; 0] []).
  vm_compute. reflexivity.
Defined.

(** ** The download *)

Lemma set_fresh {V : Type} k (v : V) (d : Dict.t V) :
  Dict.mem k d = false -> Dict.set k v d = (d ++ [(k, v)])%list.
Proof.
  unfold Dict.mem. induction d as [|[k' v'] d IH]; simpl; auto.
  destruct (String.eqb k' k); [discriminate|].
  intros H. now rewrite IH.
Qed.

Lemma update_nodup {V : Type} (l a : Dict.t V) :
  NoDup (Dict.keys a ++ Dict.keys l) -> Dict.update a l = (a ++ l)%list.
Proof.
  unfold Dict.update. revert a.
  induction l as [|[k v] l IH]; intros a Hnd; simpl.
  - now rewrite app_nil_r.
  - simpl in Hnd.
    assert (Hfresh : Dict.mem k a = false).
    { destruct (Dict.mem k a) eqn:E; auto.
      apply mem_keys in E. apply NoDup_remove_2 in Hnd.
      exfalso. apply Hnd. apply in_or_app. auto. }
    rewrite set_fresh by exact Hfresh.
    rewrite IH.
    + now rewrite <- app_assoc.
    + unfold Dict.keys in *. rewrite map_app. simpl.
      rewrite <- app_assoc. exact Hnd.
Qed.

Lemma literal_nodup {V : Type} (l : Dict.t V) :
  NoDup (Dict.keys l) -> literal l = l.
Proof. intros Hnd. unfold literal. now apply (update_nodup l Dict.empty). Qed.

Lemma keys_filter_key {V : Type} (p : string -> bool) (d : Dict.t V) :
  Dict.keys (filter (fun kv => p (fst kv)) d) = filter p (Dict.keys d).
Proof.
  induction d as [|[k v] d IH]; simpl; auto.
  destruct (p k); simpl; now rewrite IH.
Qed.

Lemma get_filter_key {V : Type} (p : string -> bool) k (d : Dict.t V) :
  Dict.get k (filter (fun kv => p (fst kv)) d)
  = if p k then Dict.get k d else None.
Proof.
  induction d as [|[k' v] d IH]; simpl.
  - now destruct (p k).
  - destruct (String.eqb k' k) eqn:E.
    + apply String.eqb_eq in E. subst k'.
      destruct (p k); simpl; [now rewrite String.eqb_refl|exact IH].
    + destruct (p k'); simpl; [now rewrite E|]; exact IH.
Qed.

Lemma get_map_entries {V W : Type} (g : V -> W) k (d : Dict.t V) :
  Dict.get k (map (fun kv => (fst kv, g (snd kv))) d)
  = option_map g (Dict.get k d).
Proof.
  induction d as [|[k' v] d IH]; simpl; auto.
  destruct (String.eqb k' k); auto.
Qed.

(** X12. For results that are dictionaries of dictionaries, the download
    has an entry for exactly the same providers in the same order, and
    each saved entry is the entry without the fields [label_class], [api]
    and [model_id]: those three are gone and every other field, the
    stored label among them, has the value it had. *)
Theorem download_drops_only_hidden_fields :
  forall (results : answers),
    NoDup (Dict.keys results) ->
    (forall n e, In (n, e) results -> NoDup (Dict.keys e)) ->
    Dict.keys (results_to_save results) = Dict.keys results
    /\ forall n e,
         Dict.get n results = Some e ->
         exists saved,
           Dict.get n (results_to_save results) = Some saved
           /\ (forall k, hidden k = true -> Dict.get k saved = None)
           /\ (forall k, hidden k = false -> Dict.get k saved = Dict.get k e).
Proof.
  intros results Hnd Hentries.
  set (strip := fun e : entry =>
                  literal (filter (fun kv2 => negb (hidden (fst kv2))) e)).
  assert (Hsave : results_to_save results
                  = map (fun kv => (fst kv, strip (snd kv))) results).
  { unfold results_to_save. fold strip. apply literal_nodup.
    unfold Dict.keys. rewrite map_map. simpl. exact Hnd. }
  rewrite Hsave. split.
  - unfold Dict.keys. rewrite map_map. reflexivity.
  - intros n e Hget. rewrite get_map_entries, Hget. simpl.
    exists (strip e). split; [reflexivity|].
    assert (Hstrip : strip e = filter (fun kv2 => negb (hidden (fst kv2))) e).
    { unfold strip. apply literal_nodup.
      rewrite (keys_filter_key (fun k => negb (hidden k))).
      apply NoDup_filter. apply (Hentries n). now apply get_in. }
    rewrite Hstrip. split; intros k Hk;
      rewrite (get_filter_key (fun k => negb (hidden k))), Hk; reflexivity.
Qed.

Lemma download_drops_only_hidden_fields_witness :
  Dict.keys (results_to_save results_example) = Dict.keys results_example
  /\ forall n e,
       Dict.get n results_example = Some e ->
       exists saved,
         Dict.get n (results_to_save results_example) = Some saved
         /\ (forall k, hidden k = true -> Dict.get k saved = None)
         /\ (forall k, hidden k = false -> Dict.get k saved = Dict.get k e).
Proof.
  apply (download_drops_only_hidden_fields results_example).
  - repeat constructor; simpl; intuition discriminate.
  - intros n e [H|[]]. injection H as <- <-.
    repeat constructor; simpl; intuition discriminate.
Defined.

(** ** Fields of the initial entries *)

(** X13. Every entry of an initial result set is the result of a call of
    the dispatcher overlaid with the configuration of the provider it is
    stored under: each field of the configuration is in the entry with the
    configuration's value, and each other field is as in the call
    result. *)
Theorem initial_entry_is_result_under_configuration :
  forall (backend : nat -> request -> outcome) h question sched log ans log1,
    (forall m, In m (models h) -> NoDup (Dict.keys m)) ->
    get_initial_answers backend h question sched log = (Ok ans, log1) ->
    forall n e, In (n, e) ans ->
      exists m r,
        In m (models h) /\ dispatched r
        /\ Dict.get "name" m = Some n
        /\ (forall k v, Dict.get k m = Some v -> Dict.get k e = Some (VStr v))
        /\ (forall k, Dict.get k m = None -> Dict.get k e = Dict.get k r).
Proof.
  intros backend h question sched log ans log1 Hdicts Hrun n e Hin.
  destruct (get_initial_answers_inv _ _ _ _ _ _ _ Hrun)
    as (tasks & rs & Ht & Hg & Hc).
  destruct (collect_initial_entries h rs ans Hc n e Hin)
    as (r & m & Hr & Hm & Hn & ->).
  destruct (initial_tasks_inv h question tasks Ht) as [_ Hapi].
  pose proof (gather_dispatched _ _ _ _ _ _ Hapi Hg r Hr) as Hd.
  exists m, r. repeat split; auto.
  - intros k v Hk. apply get_update_present.
    + unfold Dict.keys, Dict.map_values. rewrite map_map. simpl.
      now apply Hdicts.
    + unfold Dict.map_values. rewrite get_map_entries, Hk. reflexivity.
  - intros k Hk. apply get_update_absent.
    apply mem_false_get. unfold Dict.map_values.
    rewrite get_map_entries, Hk. reflexivity.
Qed.

Lemma initial_entry_is_result_under_configuration_witness :
  get_initial_answers backend_openai_down default_handler "2+2?" [0; 1] []
  = (Ok initial_openai_down,
     [OpenAIChat "gpt-4o-mini" [Message "user" "2+2?"] default_temp;
      GeminiGenerate "gemini-1.5-flash-latest" "2+2?" default_temp])
  /\ forall n e, In (n, e) initial_openai_down ->
       exists m r,
         In m (models default_handler) /\ dispatched r
         /\ Dict.get "name" m = Some n
         /\ (forall k v, Dict.get k m = Some v -> Dict.get k e = Some (VStr v))
         /\ (forall k, Dict.get k m = None -> Dict.get k e = Dict.get k r).
Proof.
  split; [reflexivity|].
  eapply (initial_entry_is_result_under_configuration backend_openai_down
            default_handler "2+2?" [0; 1] []).
  - intros m [<-|[<-|[]]]; repeat constructor; simpl; intuition discriminate.
  - reflexivity.
Defined.

(** ** Runs of the built-in configuration *)

Lemma init_shape getenv h :
  __init__ getenv = Ok h ->
  models h = models default_handler
  /\ judge_api h = "openai" /\ judge_model_id h = "gpt-4o-mini".
Proof.
  unfold __init__.
  destruct (falsy_key (getenv "OPENAI_API_KEY")); [discriminate|].
  destruct (falsy_key (getenv "GEMINI_API_KEY")); [discriminate|].
  intros H. injection H as <-. auto.
Qed.

Lemma initial_gather_any_order (backend : nat -> request -> outcome)
  h question log :
  forallb callable (models h) = true ->
  exists rs,
    length rs = length (models h)
    /\ forall sched,
         Permutation sched (seq 0 (length (models h))) ->
         get_initial_answers backend h question sched log
         = (collect_initial h rs,
            (log ++ flat_map (initial_request question) (models h))%list).
Proof.
  intros Hcall.
  destruct (callable_tasks h question Hcall) as [tasks Htasks].
  destruct (initial_tasks_inv h question tasks Htasks) as [Hlen _].
  destruct (settle_all_log backend tasks log) as (rs & Hrun & Hrs).
  exists rs. split; [congruence|]. intros sched Hperm.
  unfold get_initial_answers, bind, lift.
  rewrite Htasks, gather_in_task_order, Hrun by (now rewrite Hlen).
  unfold initial_tasks in Htasks.
  rewrite (initial_tasks_requests question (models h) tasks Htasks).
  now destruct (collect_initial h rs).
Qed.

Lemma settle_log (backend : nat -> request -> outcome) c log :
  exists r, settle backend c log = (Ok r, (log ++ requests_of c)%list).
Proof.
  destruct c as [r|req k]; simpl.
  - exists r. unfold ret. now rewrite app_nil_r.
  - eauto.
Qed.

(** the two shapes of a call of the dispatcher *)
Lemma make_api_call_cases (backend : nat -> request -> outcome)
  api model_id messages temp log :
  let call := _make_api_call api model_id messages temp in
  (exists req tag,
     requests_of call = [req]
     /\ settle backend call log
        = (Ok (call_result tag (backend (length log) req)), (log ++ [req])%list))
  \/ (requests_of call = []
      /\ settle backend call log
         = (Ok [("success", VBool false); ("error", VStr ("Unknown API: " ++ api))],
            log)).
Proof.
  unfold _make_api_call.
  destruct (String.eqb api "openai").
  - left. do 2 eexists. split; [reflexivity|]. apply settle_openai.
  - destruct (String.eqb api "gemini").
    + left. do 2 eexists. split; [reflexivity|]. apply settle_gemini.
    + right. split; reflexivity.
Qed.

(** the judging step on a result set whose entries all have a name *)
Lemma judge_on_few (backend : nat -> request -> outcome) (py : PyStr)
  h question (ans : answers) log :
  (forall n e, In (n, e) ans -> Dict.mem "name" e = true) ->
  length (content_bearing ans) < 2 ->
  are_answers_similar backend py h question ans log = (Ok true, log).
Proof.
  intros Hnamed Hfew.
  destruct (answer_list_total ans Hnamed) as (l & Hl & Hlen).
  unfold are_answers_similar, bind, lift. rewrite Hl.
  destruct l as [|first [|second rest]]; try reflexivity.
  simpl in Hlen. lia.
Qed.

Lemma judge_on_many (backend : nat -> request -> outcome) (py : PyStr)
  h question (ans : answers) log :
  (forall n e, In (n, e) ans -> Dict.mem "name" e = true) ->
  2 <= length (content_bearing ans) ->
  exists first second,
    (exists req,
       requests_of (judge_call h question first second) = [req]
       /\ are_answers_similar backend py h question ans log
          = (match backend (length log) req with
             | Returned (VStr reply) =>
                 Ok (String.eqb (str_upper py (str_strip py reply)) "YES")
             | Returned _ => Raise (AttributeError "strip")
             | Failed _ => Ok false
             end,
             (log ++ [req])%list))
    \/ (requests_of (judge_call h question first second) = []
        /\ are_answers_similar backend py h question ans log = (Ok false, log)).
Proof.
  intros Hnamed Hmany.
  destruct (answer_list_total ans Hnamed) as (l & Hl & Hlen).
  destruct l as [|first [|second rest]]; simpl in Hlen; try lia.
  exists first, second.
  unfold are_answers_similar, bind, lift, await. rewrite Hl.
  destruct (make_api_call_cases backend (judge_api h) (judge_model_id h)
              [Message "user" (comparison_prompt question first second)] 0 log)
    as [(req & tag & Hreq & Hcall)|[Hreq Hcall]].
  - left. exists req. split; [exact Hreq|].
    rewrite Hcall. now rewrite verdict_of_call_result.
  - right. split; [exact Hreq|].
    rewrite Hcall. now rewrite verdict_of_unknown_api.
Qed.

Lemma merge_results_total (revised results : answers) :
  (forall k, In k (Dict.keys revised) -> Dict.mem k results = true) ->
  exists merged, merge_results results revised = Ok merged.
Proof.
  unfold merge_results. revert results.
  induction revised as [|[k data] revised IH]; intros results Hkeys; simpl; eauto.
  assert (Hk : Dict.mem k results = true) by (apply Hkeys; simpl; auto).
  apply mem_true_get in Hk. destruct Hk as [current Hk].
  unfold subscript. rewrite Hk. simpl.
  apply IH. intros k' Hk'. rewrite mem_set.
  rewrite (Hkeys k') by (simpl; auto). apply orb_true_r.
Qed.

(** X14. With the handler that [__init__] builds, the initial gather
    returns a result set for the two built-in providers after two
    requests, and the rest of the run is fixed by it and by the judge,
    whatever the order in which the calls of a batch complete. With fewer
    than two content-bearing entries the run ends there, in agreement,
    with two requests in all. Otherwise the judge is asked, which makes
    three requests: when the judging step returns [True] the run ends in
    agreement; when it returns [False] the revision round adds two
    requests, five in all, and the results keep the two providers; when it
    raises [AttributeError] (a judge content that is not text) the run
    ends with that exception. *)
Theorem built_in_run_outcomes :
  forall (backend : nat -> request -> outcome) (py : PyStr)
         getenv h question log,
    __init__ getenv = Ok h ->
    exists ans log1,
      (forall sched1, Permutation sched1 [0; 1] ->
         get_initial_answers backend h question sched1 log = (Ok ans, log1))
      /\ Dict.keys ans = ["GPT-4o-mini"; "Gemini-1.5-Flash"]
      /\ length log1 = length log + 2
      /\ ((length (content_bearing ans) < 2
           /\ run_is backend py question h log
                (Ok (Session (initial_results ans) false true)) log1)
          \/ (2 <= length (content_bearing ans)
              /\ exists log2,
                   length log2 = length log + 3
                   /\ ((are_answers_similar backend py h question ans log1
                        = (Ok true, log2)
                        /\ run_is backend py question h log
                             (Ok (Session (initial_results ans) false true)) log2)
                       \/ (are_answers_similar backend py h question ans log1
                           = (Ok false, log2)
                           /\ exists merged log3,
                                length log3 = length log + 5
                                /\ Dict.keys merged
                                   = ["GPT-4o-mini"; "Gemini-1.5-Flash"]
                                /\ run_is backend py question h log
                                     (Ok (Session merged true true)) log3)
                       \/ (are_answers_similar backend py h question ans log1
                           = (Raise (AttributeError "strip"), log2)
                           /\ run_is backend py question h log
                                (Raise (AttributeError "strip")) log2)))).
Proof.
  intros backend py getenv h question log Hinit.
  destruct (init_shape getenv h Hinit) as (Hms & Hja & Hjm).
  assert (Hcall : forallb callable (models h) = true) by now rewrite Hms.
  assert (Hconf : forallb configured (models h) = true) by now rewrite Hms.
  assert (Hnames : provider_names h = ["GPT-4o-mini"; "Gemini-1.5-Flash"])
    by (unfold provider_names; now rewrite Hms).
  assert (Hnd : NoDup (provider_names h)).
  { rewrite Hnames. repeat constructor; simpl; intuition discriminate. }
  assert (Hseq : seq 0 (length (models h)) = [0; 1]) by now rewrite Hms.
  destruct (initial_gather_any_order backend h question log Hcall)
    as (rs & Hlen & Hgather).
  destruct (collect_initial_keys h rs Hlen Hnd Hconf) as (ans & Hans & Hkeys).
  rewrite Hans, Hseq in Hgather. rewrite Hnames in Hkeys.
  assert (Hlog1 : length (log ++ flat_map (initial_request question) (models h))
                  = length log + 2).
  { rewrite Hms, length_app. reflexivity. }
  remember (log ++ flat_map (initial_request question) (models h))%list as log1.
  assert (Hkeysnd : NoDup (Dict.keys ans)).
  { rewrite Hkeys. repeat constructor; simpl; intuition discriminate. }
  assert (Hrkeys : Dict.keys (initial_results ans)
                   = ["GPT-4o-mini"; "Gemini-1.5-Flash"]).
  { now rewrite initial_results_keys. }
  pose proof (initial_entries_named _ _ _ _ _ _ _
                (Hgather [0; 1] (Permutation_refl _))) as Hnamed.
  exists ans, log1.
  split; [exact Hgather|]. split; [exact Hkeys|]. split; [exact Hlog1|].
  destruct (Nat.lt_ge_cases (length (content_bearing ans)) 2) as [Hfew|Hmany].
  - left. split; [exact Hfew|].
    pose proof (judge_on_few backend py h question ans log1 Hnamed Hfew) as Hj.
    intros sched1 sched2 H1 H2. unfold process_validation, bind.
    now rewrite (Hgather sched1 H1), Hj.
  - right. split; [exact Hmany|].
    destruct (judge_on_many backend py h question ans log1 Hnamed Hmany)
      as (first & second & [(req & Hreq & Hj)|[Hreq _]]);
      [|unfold judge_call in Hreq; rewrite Hja in Hreq; discriminate].
    exists (log1 ++ [req])%list.
    split; [rewrite length_app, Hlog1; simpl; lia|].
    assert (Hagreed :
              are_answers_similar backend py h question ans log1
              = (Ok true, (log1 ++ [req])%list) ->
              run_is backend py question h log
                (Ok (Session (initial_results ans) false true))
                (log1 ++ [req])%list).
    { intros Hyes sched1 sched2 H1 H2. unfold process_validation, bind.
      now rewrite (Hgather sched1 H1), Hyes. }
    assert (Hraised :
              are_answers_similar backend py h question ans log1
              = (Raise (AttributeError "strip"), (log1 ++ [req])%list) ->
              run_is backend py question h log
                (Raise (AttributeError "strip")) (log1 ++ [req])%list).
    { intros Hexn sched1 sched2 H1 H2. unfold process_validation, bind.
      now rewrite (Hgather sched1 H1), Hexn. }
    assert (Hdisagreed :
              are_answers_similar backend py h question ans log1
              = (Ok false, (log1 ++ [req])%list) ->
              exists merged log3,
                length log3 = length log + 5
                /\ Dict.keys merged = ["GPT-4o-mini"; "Gemini-1.5-Flash"]
                /\ run_is backend py question h log
                     (Ok (Session merged true true)) log3).
    { intros Hno.
      destruct ans as [|[k1 e1] [|[k2 e2] [|x ans]]]; try discriminate.
      simpl in Hkeys. injection Hkeys as -> ->.
      unfold content_bearing in Hmany. simpl in Hmany.
      destruct (Dict.mem "content" e1) eqn:E1;
        destruct (Dict.mem "content" e2) eqn:E2; simpl in Hmany; try lia.
      apply mem_true_get in E1, E2. destruct E1 as [c1 Hc1], E2 as [c2 Hc2].
      destruct (revision_two_providers backend h question
                  [("GPT-4o-mini", e1); ("Gemini-1.5-Flash", e2)]
                  (log1 ++ [req])%list
                  _ _ "GPT-4o-mini" "Gemini-1.5-Flash"
                  "openai" "gpt-4o-mini" "gemini" "gemini-1.5-flash-latest"
                  e1 e2 c1 c2 Hms eq_refl eq_refl)
        as (rev & Hrev & Hrevkeys); try reflexivity; try assumption;
        [discriminate|].
      destruct (merge_results_total rev
                  (initial_results
                     [("GPT-4o-mini", e1); ("Gemini-1.5-Flash", e2)]))
        as [merged Hmerged].
      { intros k Hk. apply mem_keys. rewrite Hrkeys. now rewrite Hrevkeys in Hk. }
      match type of Hrev with
      | forall _, _ -> _ = (_, ?l) => exists merged, l
      end.
      split; [|split].
      - rewrite !length_app, Hlog1. simpl. lia.
      - now rewrite (merge_results_keys _ _ _ Hmerged).
      - intros sched1 sched2 H1 H2. unfold process_validation, bind, lift.
        rewrite (Hgather sched1 H1), Hno, (Hrev sched2 H2), Hmerged.
        reflexivity. }
    destruct (backend (length log1) req) as [[reply|b|]|e].
    + destruct (String.eqb (str_upper py (str_strip py reply)) "YES").
      * left. split; [exact Hj|]. now apply Hagreed.
      * right. left. split; [exact Hj|]. now apply Hdisagreed.
    + right. right. split; [exact Hj|]. now apply Hraised.
    + right. right. split; [exact Hj|]. now apply Hraised.
    + right. left. split; [exact Hj|]. now apply Hdisagreed.
Qed.

(** a run in which both providers answer, the judge replies with text
    that is not YES and the revision call of Gemini fails *)
Lemma built_in_run_outcomes_witness :
  exists ans log1,
    (forall sched1, Permutation sched1 [0; 1] ->
       get_initial_answers backend_gemini_quota default_handler "2+2?" sched1 []
       = (Ok ans, log1))
    /\ Dict.keys ans = ["GPT-4o-mini"; "Gemini-1.5-Flash"]
    /\ length log1 = length (@nil request) + 2
    /\ ((length (content_bearing ans) < 2
         /\ run_is backend_gemini_quota seven_bit "2+2?" default_handler []
              (Ok (Session (initial_results ans) false true)) log1)
        \/ (2 <= length (content_bearing ans)
            /\ exists log2,
                 length log2 = length (@nil request) + 3
                 /\ ((are_answers_similar backend_gemini_quota seven_bit
                        default_handler "2+2?" ans log1 = (Ok true, log2)
                      /\ run_is backend_gemini_quota seven_bit "2+2?"
                           default_handler []
                           (Ok (Session (initial_results ans) false true)) log2)
                     \/ (are_answers_similar backend_gemini_quota seven_bit
                           default_handler "2+2?" ans log1 = (Ok false, log2)
                         /\ exists merged log3,
                              length log3 = length (@nil request) + 5
                              /\ Dict.keys merged
                                 = ["GPT-4o-mini"; "Gemini-1.5-Flash"]
                              /\ run_is backend_gemini_quota seven_bit "2+2?"
                                   default_handler []
                                   (Ok (Session merged true true)) log3)
                     \/ (are_answers_similar backend_gemini_quota seven_bit
                           default_handler "2+2?" ans log1
                         = (Raise (AttributeError "strip"), log2)
                         /\ run_is backend_gemini_quota seven_bit "2+2?"
                              default_handler []
                              (Raise (AttributeError "strip")) log2)))).
Proof.
  apply (built_in_run_outcomes backend_gemini_quota seven_bit env_both_keys
           default_handler "2+2?" []).
  reflexivity.
Defined.

(** ** Judging after the initial gather, and small registries *)

(** X15. On every result set that the initial gather returns, the judging
    step never raises [KeyError]. With fewer than two content-bearing
    entries it returns [True] without a request. Otherwise it returns a
    verdict after at most one request, unless the backend of the judge
    returned a content that is not text: then, and only then, it raises
    [AttributeError], after that one request. *)
Theorem judge_after_initial_gather :
  forall (backend : nat -> request -> outcome) (py : PyStr)
         h question sched log ans log1,
    get_initial_answers backend h question sched log = (Ok ans, log1) ->
    (length (content_bearing ans) < 2
     /\ are_answers_similar backend py h question ans log1 = (Ok true, log1))
    \/ (2 <= length (content_bearing ans)
        /\ ((exists agree log2,
               are_answers_similar backend py h question ans log1
               = (Ok agree, log2)
               /\ (log2 = log1 \/ exists req, log2 = (log1 ++ [req])%list))
            \/ (exists req v,
                  backend (length log1) req = Returned v
                  /\ (forall text, v <> VStr text)
                  /\ are_answers_similar backend py h question ans log1
                     = (Raise (AttributeError "strip"), (log1 ++ [req])%list)))).
Proof.
  intros backend py h question sched log ans log1 Hinit.
  pose proof (initial_entries_named _ _ _ _ _ _ _ Hinit) as Hnamed.
  destruct (Nat.lt_ge_cases (length (content_bearing ans)) 2) as [Hfew|Hmany].
  - left. split; [exact Hfew|]. now apply judge_on_few.
  - right. split; [exact Hmany|].
    destruct (judge_on_many backend py h question ans log1 Hnamed Hmany)
      as (first & second & [(req & _ & Hj)|[_ Hj]]).
    + destruct (backend (length log1) req) as [[reply|b|]|e] eqn:Eo.
      * left. do 2 eexists. split; [exact Hj|]. right. eauto.
      * right. exists req, (VBool b). repeat split; auto. discriminate.
      * right. exists req, VNone. repeat split; auto. discriminate.
      * left. do 2 eexists. split; [exact Hj|]. right. eauto.
    + left. do 2 eexists. split; [exact Hj|]. now left.
Qed.

(** the run in which the OpenAI call fails and Gemini answers *)
Lemma judge_after_initial_gather_witness :
  (length (content_bearing initial_openai_down) < 2
   /\ are_answers_similar backend_openai_down seven_bit default_handler "2+2?"
        initial_openai_down
        [OpenAIChat "gpt-4o-mini" [Message "user" "2+2?"] default_temp;
         GeminiGenerate "gemini-1.5-flash-latest" "2+2?" default_temp]
      = (Ok true,
         [OpenAIChat "gpt-4o-mini" [Message "user" "2+2?"] default_temp;
          GeminiGenerate "gemini-1.5-flash-latest" "2+2?" default_temp]))
  \/ (2 <= length (content_bearing initial_openai_down)
      /\ ((exists agree log2,
             are_answers_similar backend_openai_down seven_bit default_handler
               "2+2?" initial_openai_down
               [OpenAIChat "gpt-4o-mini" [Message "user" "2+2?"] default_temp;
                GeminiGenerate "gemini-1.5-flash-latest" "2+2?" default_temp]
             = (Ok agree, log2)
             /\ (log2
                 = [OpenAIChat "gpt-4o-mini" [Message "user" "2+2?"] default_temp;
                    GeminiGenerate "gemini-1.5-flash-latest" "2+2?" default_temp]
                 \/ exists req,
                      log2
                      = ([OpenAIChat "gpt-4o-mini" [Message "user" "2+2?"]
                            default_temp;
                          GeminiGenerate "gemini-1.5-flash-latest" "2+2?"
                            default_temp] ++ [req])%list))
          \/ (exists req v,
                backend_openai_down
                  (length
                     [OpenAIChat "gpt-4o-mini" [Message "user" "2+2?"] default_temp;
                      GeminiGenerate "gemini-1.5-flash-latest" "2+2?" default_temp])
                  req = Returned v
                /\ (forall text, v <> VStr text)
                /\ are_answers_similar backend_openai_down seven_bit
                     default_handler "2+2?" initial_openai_down
                     [OpenAIChat "gpt-4o-mini" [Message "user" "2+2?"] default_temp;
                      GeminiGenerate "gemini-1.5-flash-latest" "2+2?" default_temp]
                   = (Raise (AttributeError "strip"),
                      ([OpenAIChat "gpt-4o-mini" [Message "user" "2+2?"]
                          default_temp;
                        GeminiGenerate "gemini-1.5-flash-latest" "2+2?"
                          default_temp] ++ [req])%list)))).
Proof.
  apply (judge_after_initial_gather backend_openai_down seven_bit
           default_handler "2+2?" [0; 1] []).
  reflexivity.
Defined.

(** X16. With at most one provider, configured with name, model
    identifier and capability, a run ends after the initial gather with
    the agreement outcome: the judge is not consulted, no revision is
    asked for, and the only requests are those of the initial gather. *)
Theorem run_of_a_lone_provider_agrees :
  forall (backend : nat -> request -> outcome) (py : PyStr) h question sched1 sched2 log,
    forallb configured (models h) = true ->
    length (models h) <= 1 ->
    Permutation sched1 (seq 0 (length (models h))) ->
    exists ans,
      process_validation backend py question h sched1 sched2 log
      = (Ok (Session (initial_results ans) false true),
         (log ++ flat_map (initial_request question) (models h))%list)
      /\ Dict.keys ans = provider_names h.
Proof.
  intros backend py h question sched1 sched2 log Hconf Hone Hperm.
  assert (Hcall : forallb callable (models h) = true).
  { rewrite forallb_forall in *. intros m Hm. specialize (Hconf m Hm).
    unfold configured in Hconf. unfold callable.
    rewrite !andb_true_iff in *. tauto. }
  assert (Hnd : NoDup (provider_names h)).
  { unfold provider_names. destruct (models h) as [|m [|m' ms]]; simpl in *;
      try lia; repeat constructor; simpl; tauto. }
  destruct (initial_gather_any_order backend h question log Hcall)
    as (rs & Hlen & Hgather).
  destruct (collect_initial_keys h rs Hlen Hnd Hconf) as (ans & Hans & Hkeys).
  specialize (Hgather sched1 Hperm). rewrite Hans in Hgather.
  exists ans. split; [|exact Hkeys].
  pose proof (initial_entries_named _ _ _ _ _ _ _ Hgather) as Hnamed.
  assert (Hfew : length (content_bearing ans) < 2).
  { unfold content_bearing.
    pose proof (filter_length_le (fun kv => Dict.mem "content" (snd kv)) ans) as Hle.
    assert (Hans_len : length ans = length (models h)).
    { unfold provider_names, Dict.keys in Hkeys.
      rewrite <- (length_map fst ans), Hkeys. apply length_map. }
    unfold answers, entry in *. lia. }
  pose proof (judge_on_few backend py h question ans
                (log ++ flat_map (initial_request question) (models h))%list
                Hnamed Hfew) as Hj.
  unfold process_validation, bind. now rewrite Hgather, Hj.
Qed.

Lemma run_of_a_lone_provider_agrees_witness :
  exists ans,
    process_validation backend_down seven_bit "2+2?" openai_only [0] [] []
    = (Ok (Session (initial_results ans) false true),
       ([] ++ flat_map (initial_request "2+2?") (models openai_only))%list)
    /\ Dict.keys ans = provider_names openai_only.
Proof.
  apply (run_of_a_lone_provider_agrees backend_down seven_bit openai_only "2+2?" [0] [] []).
  - reflexivity.
  - simpl. lia.
  - simpl. apply Permutation_refl.
Defined.

(** ** The prompt for Gemini *)

(** X17. The Gemini adapter sends only the messages of role [user]: a
    message of any other role, wherever it stands in the sequence, changes
    neither the request nor the result of the call. *)
Theorem gemini_ignores_other_roles :
  forall (backend : nat -> request -> outcome) model_id temp before m after log,
    role m <> "user" ->
    await backend (_call_gemini_sync model_id (before ++ m :: after) temp) log
    = await backend (_call_gemini_sync model_id (before ++ after) temp) log.
Proof.
  intros backend model_id temp before m after log Hrole.
  unfold await. rewrite !settle_gemini.
  assert (Hprompt : gemini_prompt_of (before ++ m :: after)
                    = gemini_prompt_of (before ++ after)).
  { unfold gemini_prompt_of. rewrite !filter_app. simpl.
    apply String.eqb_neq in Hrole. now rewrite Hrole. }
  now rewrite Hprompt.
Qed.

Lemma gemini_ignores_other_roles_witness :
  await backend_openai_down
    (_call_gemini_sync "gemini-1.5-flash-latest"
       ([Message "user" "2+2?"] ++ Message "system" "Be brief." :: []) default_temp)
    []
  = await backend_openai_down
      (_call_gemini_sync "gemini-1.5-flash-latest"
         ([Message "user" "2+2?"] ++ []) default_temp) [].
Proof.
  apply (gemini_ignores_other_roles backend_openai_down "gemini-1.5-flash-latest"
           default_temp [Message "user" "2+2?"] (Message "system" "Be brief.") []).
  discriminate.
Defined.
